(** * pyrealm.pmodel.subdaily: the memory effect and the subdaily P Model

    A shallow embedding of [src/pyrealm/pmodel/subdaily.py].

    - NumPy's float64 arithmetic is an interface ([Arith]) with two
      instances: IEEE binary64 ([float], the arithmetic the program runs
      on) and the real numbers (the arithmetic its formulas denote).
    - An array with a leading time axis is a list of time slices, each
      slice holding its trailing elements in row-major order, together
      with the trailing shape. Operands of elementwise operations have
      one shape: NumPy's broadcasting is not modelled.
    - Python exceptions are values of [exn]; a computation that may raise
      returns a [result], and statements are sequenced in their order in
      the source.
    - [memory_effect] writes its output array by index, as the source
      does; the recursion it computes is a separate definition
      ([recursion]) related to the loop by an invariant.
    - The classes the constructor of [SubdailyPModel] takes from other
      modules of the package are fields of a record ([Package]); the
      warning issued when the constructor starts has no effect on its
      result and is left out. *)

From Stdlib Require Import Floats Reals Lra Lia Bool.
From stdpp Require Import base list strings gmap.

Local Open Scope string_scope.
Local Open Scope list_scope.

(** ** Exceptions *)

Inductive exn : Type :=
| ValueError (msg : string)
| IndexError (msg : string)
| NotImplementedError (msg : string)
| OtherError (msg : string).

Inductive result (A : Type) : Type :=
| Ok (a : A)
| Raise (e : exn).
Arguments Ok {A} a.
Arguments Raise {A} e.

#[global] Instance result_ret : MRet result := fun A a => Ok a.
#[global] Instance result_bind : MBind result := fun A B f m =>
  match m with
  | Ok a => f a
  | Raise e => Raise e
  end.

Definition is_ok {A} (r : result A) : bool :=
  match r with Ok _ => true | Raise _ => false end.

(** ** Arithmetic of array elements *)

Class Arith (T : Type) : Type := {
  add : T -> T -> T;
  sub : T -> T -> T;
  mul : T -> T -> T;
  div : T -> T -> T;
  sqrt : T -> T;
  leb : T -> T -> bool;
  isnan : T -> bool;
  one : T;
  four : T
}.

(** float64, as NumPy computes. *)
#[global] Instance float_arith : Arith float := {
  add := PrimFloat.add;
  sub := PrimFloat.sub;
  mul := PrimFloat.mul;
  div := PrimFloat.div;
  sqrt := PrimFloat.sqrt;
  leb := PrimFloat.leb;
  isnan := PrimFloat.is_nan;
  one := 1%float;
  four := 4%float
}.

Definition Rleb (x y : R) : bool := if Rle_dec x y then true else false.

(** Exact real arithmetic: no value is missing. *)
#[global] Instance real_arith : Arith R := {
  add := Rplus;
  sub := Rminus;
  mul := Rmult;
  div := Rdiv;
  sqrt := R_sqrt.sqrt;
  leb := Rleb;
  isnan := fun _ => false;
  one := 1%R;
  four := 4%R
}.

(** ** Arrays *)

Section Arrays.
Context {T : Type}.

(** [values] of shape [(n, d1, ..., dk)]: [length slices = n] and
    [trailing = [d1; ...; dk]]. *)
Record ndarray : Type := NDArray {
  trailing : list nat;
  slices : list (list T)
}.

(** One time slice [values[t]], of shape [sl_shape]. *)
Record ndslice : Type := NDSlice {
  sl_shape : list nat;
  sl_data : list T
}.

Definition numel (shape : list nat) : nat := foldr Nat.mul 1 shape.

Definition wf_ndarray (a : ndarray) : Prop :=
  Forall (fun r => length r = numel (trailing a)) (slices a).

Definition wf_ndslice (s : ndslice) : Prop :=
  length (sl_data s) = numel (sl_shape s).

(** [len(a)] *)
Definition len (a : ndarray) : nat := length (slices a).

(** [a.size] *)
Definition size (a : ndarray) : nat := length (concat (slices a)).

(** [a[i]] for a non-negative [i] *)
Definition getitem (a : ndarray) (i : nat) : result ndslice :=
  match slices a !! i with
  | Some r => Ok (NDSlice (trailing a) r)
  | None => Raise (IndexError "index is out of bounds for axis 0")
  end.

(** [a[i] = s] for a non-negative [i] and a slice of the shape of [a[i]] *)
Definition setitem (a : ndarray) (i : nat) (s : ndslice) : result ndarray :=
  if decide (i < len a) then
    if decide (sl_shape s = trailing a) then
      Ok (NDArray (trailing a) (<[i := sl_data s]> (slices a)))
    else Raise (ValueError "could not broadcast input array")
  else Raise (IndexError "index is out of bounds for axis 0").

(** [np.empty_like(a)]: the shape of [a], every element whatever the
    allocator left there ([uninit]). *)
Definition empty_like (uninit : T) (a : ndarray) : ndarray :=
  NDArray (trailing a) (map (fun r => replicate (length r) uninit) (slices a)).

(** An elementwise binary operation on two slices of one shape.  NumPy's
    broadcasting of operands of different shapes is outside the model:
    such operands raise. *)
Definition slice_map2 (f : T -> T -> T) (x y : ndslice) : result ndslice :=
  if decide (sl_shape x = sl_shape y) then
    Ok (NDSlice (sl_shape x) (zip_with f (sl_data x) (sl_data y)))
  else Raise (ValueError "operands could not be broadcast together").

(** An elementwise operation on a whole array. *)
Definition nd_map (f : T -> T) (a : ndarray) : ndarray :=
  NDArray (trailing a) (map (map f) (slices a)).

(** An elementwise binary operation on two arrays of one shape; as for
    slices, operands of different shapes raise. *)
Definition nd_map2 (f : T -> T -> T) (a b : ndarray) : result ndarray :=
  if decide (trailing a = trailing b /\ len a = len b) then
    Ok (NDArray (trailing a) (zip_with (zip_with f) (slices a) (slices b)))
  else Raise (ValueError "operands could not be broadcast together").

(** [a[t][j]], [j] indexing the flattened trailing axes. *)
Definition element (a : ndarray) (t j : nat) : option T :=
  slices a !! t ≫= fun r => r !! j.

(** [for idx in range(lo, hi): s = body(idx, s)] *)
Definition for_range {St : Type} (lo hi : nat)
    (body : nat -> St -> result St) (s : St) : result St :=
  foldl (fun acc idx => acc ≫= body idx) (Ok s) (seq lo (hi - lo)).
End Arrays.
Arguments ndarray T : clear implicits.
Arguments ndslice T : clear implicits.

(** ** memory_effect *)

Section MemoryEffect.
Context {T : Type} `{Arith T}.

(** [np.any(np.isnan(values))] *)
Definition any_isnan (values : ndarray T) : bool :=
  existsb (existsb isnan) (slices values).

(** [prev * (1 - alpha) + cur * alpha] on one element *)
Definition blend (alpha prev cur : T) : T :=
  add (mul prev (sub one alpha)) (mul cur alpha).

(** [np.where(prev_nan, cur, np.where(curr_nan, prev, blend))] on one
    element *)
Definition holdover (alpha prev cur : T) : T :=
  if isnan prev then cur
  else if isnan cur then prev
  else blend alpha prev cur.

Definition memory_effect (uninit : T) (values : ndarray T)
    (previous_values : option (ndslice T)) (alpha : T)
    (allow_holdover : bool) : result (ndarray T) :=
  let nan_present := any_isnan values in
  if nan_present && negb allow_holdover then
    Raise (ValueError "Missing values in data passed to memory_effect")
  else
    let memory_values := empty_like uninit values in
    memory_values ←
      match previous_values with
      | None =>
          v0 ← getitem values 0;
          setitem memory_values 0 v0
      | Some previous =>
          v0 ← getitem values 0;
          r0 ← slice_map2 (blend alpha) previous v0;
          setitem memory_values 0 r0
      end;
    if negb nan_present then
      for_range 1 (len memory_values)
        (fun idx mv =>
           prev ← getitem mv (idx - 1);
           cur ← getitem values idx;
           r ← slice_map2 (blend alpha) prev cur;
           setitem mv idx r)
        memory_values
    else
      for_range 1 (len memory_values)
        (fun idx mv =>
           prev ← getitem mv (idx - 1);
           cur ← getitem values idx;
           r ← slice_map2 (holdover alpha) prev cur;
           setitem mv idx r)
        memory_values.
End MemoryEffect.


(** ** SubdailyPModel *)

Section Subdaily.
Context {T : Type} {A : Arith T}.

(** [np.minimum]: the smaller element, a missing one if either is
    missing. *)
Definition minimum (x y : T) : T :=
  if leb x y || isnan x then x else y.

(** *** Collaborators

    The classes below live in modules of the package that are not part
    of [src/]: only what [SubdailyPModel.__init__] reads from them or
    calls on them is declared. *)

(** Dictionaries of Arrhenius coefficients and the bounds checker are
    passed through untouched. *)
Context {Coef BoundsChecker : Type}.

Record CoreConst : Type := {
  k_c_molmass : T
}.

Record PModelConst : Type := {
  plant_T_ref : T;
  arrhenius_vcmax : Coef;
  arrhenius_jmax : Coef
}.

Record PModelEnvironment : Type := {
  tc : ndarray T;
  co2 : ndarray T;
  patm : ndarray T;
  vpd : ndarray T;
  (** the optional forcing variables, [None] when not provided *)
  optional : string -> option (ndarray T);
  pmodel_const : PModelConst;
  core_const : CoreConst;
  _bounds_checker : BoundsChecker
}.

(** [getattr(env, name)] for the name of a forcing variable *)
Definition env_getattr (env : PModelEnvironment) (name : string)
    : option (ndarray T) :=
  if String.eqb name "tc" then Some (tc env)
  else if String.eqb name "co2" then Some (co2 env)
  else if String.eqb name "patm" then Some (patm env)
  else if String.eqb name "vpd" then Some (vpd env)
  else optional env name.

Record SubdailyScaler : Type := {
  datetimes : list Z;
  (** [Some] once one of the [set_] methods has run:
      [hasattr(fs_scaler, "include")] *)
  include : option (list bool);
  get_daily_means : ndarray T -> bool -> result (ndarray T);
  fill_daily_to_subdaily :
    ndarray T -> option (ndslice T) -> result (ndarray T)
}.

Record OptimalChiABC : Type := {
  xi : ndarray T;
  mc : ndarray T;
  mj : ndarray T
}.

Record OptimalChiClass : Type := {
  is_c4 : bool;
  optchi_requires : list string;
  optchi_new : PModelEnvironment -> PModelConst -> result OptimalChiABC;
  estimate_chi : OptimalChiABC -> ndarray T -> result OptimalChiABC
}.

Record QuantumYieldABC : Type := {
  reference_kphio : ndarray T;
  kphio : ndarray T
}.

Record QuantumYieldClass : Type := {
  kphio_requires : list string;
  kphio_new :
    PModelEnvironment -> bool -> option (ndarray T) -> result QuantumYieldABC
}.

Record ArrheniusFactorABC : Type := {
  calculate_arrhenius_factor : Coef -> result (ndarray T)
}.

Record PModel : Type := {
  pm_env : PModelEnvironment;
  optchi : OptimalChiABC;
  vcmax : ndarray T;
  jmax : ndarray T
}.

(** The registries and constructors of the rest of the package. *)
Record Package : Type := {
  OPTIMAL_CHI_CLASS_REGISTRY : gmap string OptimalChiClass;
  QUANTUM_YIELD_CLASS_REGISTRY : gmap string QuantumYieldClass;
  ARRHENIUS_METHOD_REGISTRY :
    gmap string
      (PModelEnvironment -> T -> CoreConst -> result ArrheniusFactorABC);
  (** [PModelEnvironment] called on the entries of [daily_environment]
      and the constants and bounds checker of [env] *)
  PModelEnvironment_new :
    gmap string (ndarray T) -> PModelConst -> CoreConst -> BoundsChecker ->
    result PModelEnvironment;
  (** [PModel(env, method_kphio, method_optchi, method_jmaxlim,
      method_arrhenius, reference_kphio)] *)
  PModel_new :
    PModelEnvironment -> string -> string -> string -> string -> ndarray T ->
    result PModel;
  (** [pmodel.estimate_productivity(fapar, ppfd)] *)
  estimate_productivity : PModel -> ndarray T -> ndarray T -> result PModel;
  (** what the allocator leaves in a fresh array *)
  uninit : T
}.

Variable pkg : Package.

(** [registry[key]] *)
Definition registry_getitem {V : Type} (registry : gmap string V)
    (key : string) : result V :=
  match registry !! key with
  | Some v => Ok v
  | None => Raise (OtherError "KeyError")
  end.

(** [key not in registry] *)
Definition not_in {V : Type} (key : string) (registry : gmap string V) : bool :=
  match registry !! key with
  | Some _ => false
  | None => true
  end.

(** The attributes of a fitted model. *)
Record SubdailyPModel : Type := {
  sp_datetimes : list Z;
  sp_env : PModelEnvironment;
  sp_method_optchi : string;
  sp_c4 : bool;
  sp_method_kphio : string;
  sp_method_arrhenius : string;
  sp_kphio : QuantumYieldABC;
  pmodel_acclim : PModel;
  ppfd_acclim : ndarray T;
  fapar_acclim : ndarray T;
  vcmax25_opt : ndarray T;
  jmax25_opt : ndarray T;
  xi_real : ndarray T;
  vcmax25_real : ndarray T;
  jmax25_real : ndarray T;
  subdaily_xi : ndarray T;
  subdaily_vcmax25 : ndarray T;
  subdaily_jmax25 : ndarray T;
  subdaily_vcmax : ndarray T;
  subdaily_jmax : ndarray T;
  optimal_chi : OptimalChiABC;
  subdaily_Ac : ndarray T;
  subdaily_Aj : ndarray T;
  gpp : ndarray T
}.

(** The arguments of [SubdailyPModel.__init__]. *)
Record Args : Type := {
  env : PModelEnvironment;
  fs_scaler : SubdailyScaler;
  fapar : ndarray T;
  ppfd : ndarray T;
  method_optchi : string;
  method_jmaxlim : string;
  method_kphio : string;
  method_arrhenius : string;
  arg_reference_kphio : option (ndarray T);
  alpha : T;
  allow_holdover : bool;
  allow_partial_data : bool;
  fill_kind : string;
  previous_realised : option (ndslice T * ndslice T * ndslice T)
}.

(** The checks that open the constructor (lines 268-309). *)
Definition validate (a : Args) : result unit :=
  let n_datetimes := length (datetimes (fs_scaler a)) in
  let n_env_first_axis := len (tc (env a)) in
  if negb (Nat.eqb n_datetimes n_env_first_axis) then
    Raise (ValueError "env and fs_scaler do not have congruent dimensions")
  else if negb (bool_decide (is_Some (include (fs_scaler a)))) then
    Raise (ValueError "The daily sampling window has not been set on fs_scaler")
  else if not_in (method_optchi a) (OPTIMAL_CHI_CLASS_REGISTRY pkg) then
    Raise (ValueError
             ("Unknown optimal chi estimation method: " +:+ method_optchi a))
  else if not_in (method_kphio a) (QUANTUM_YIELD_CLASS_REGISTRY pkg) then
    Raise (ValueError ("Unknown kphio calculation method: " +:+ method_kphio a))
  else if not_in (method_arrhenius a) (ARRHENIUS_METHOD_REGISTRY pkg) then
    Raise (ValueError
             ("Unknown Arrhenius scaling method: " +:+ method_arrhenius a))
  else Ok ().

(** The loop that fills [daily_environment] (lines 329-335). *)
Definition daily_environment_of (a : Args) (vars : list string)
    : result (gmap string (ndarray T)) :=
  foldl
    (fun acc env_var_name =>
       daily_environment ← acc;
       match env_getattr (env a) env_var_name with
       | Some env_var =>
           m ← get_daily_means (fs_scaler a) env_var (allow_partial_data a);
           Ok (<[env_var_name := m]> daily_environment)
       | None => Ok daily_environment
       end)
    (Ok ∅) vars.

(** The reference value and the method of the daily model (lines
    359-366). *)
Definition daily_kphio_settings (a : Args) (kphio_sub : QuantumYieldABC)
    : result (ndarray T * string) :=
  if Nat.ltb 1 (size (reference_kphio kphio_sub)) then
    daily_reference_kphio ←
      get_daily_means (fs_scaler a) (kphio kphio_sub) (allow_partial_data a);
    Ok (daily_reference_kphio, "fixed")
  else Ok (reference_kphio kphio_sub, method_kphio a).

(** What steps 1 to 4 leave for the rest of the constructor. *)
Record Acclimation : Type := {
  ac_c4 : bool;
  ac_kphio : QuantumYieldABC;
  ac_pmodel_acclim : PModel;
  ac_ppfd_acclim : ndarray T;
  ac_fapar_acclim : ndarray T;
  ac_vcmax25_opt : ndarray T;
  ac_jmax25_opt : ndarray T
}.

(** Steps 1 to 4: the daily acclimation model and the optimal values at
    the reference temperature (lines 268-423). *)
Definition acclimate (a : Args) : result Acclimation :=
  _ ← validate a;
  optchi_class ←
    registry_getitem (OPTIMAL_CHI_CLASS_REGISTRY pkg) (method_optchi a);
  let c4 := is_c4 optchi_class in
  kphio_class ←
    registry_getitem (QUANTUM_YIELD_CLASS_REGISTRY pkg) (method_kphio a);
  let daily_environment_vars :=
    ["tc"; "co2"; "patm"; "vpd"]
      ++ optchi_requires optchi_class ++ kphio_requires kphio_class in
  daily_environment ← daily_environment_of a daily_environment_vars;
  pmodel_env_acclim ←
    PModelEnvironment_new pkg daily_environment (pmodel_const (env a))
      (core_const (env a)) (_bounds_checker (env a));
  kphio_sub ← kphio_new kphio_class (env a) c4 (arg_reference_kphio a);
  '(daily_reference_kphio, daily_method_kphio) ←
    daily_kphio_settings a kphio_sub;
  pmodel ←
    PModel_new pkg pmodel_env_acclim daily_method_kphio (method_optchi a)
      (method_jmaxlim a) (method_arrhenius a) daily_reference_kphio;
  ppfd_acclim' ←
    get_daily_means (fs_scaler a) (ppfd a) (allow_partial_data a);
  fapar_acclim' ←
    get_daily_means (fs_scaler a) (fapar a) (allow_partial_data a);
  pmodel ← estimate_productivity pkg pmodel fapar_acclim' ppfd_acclim';
  arrhenius_class ←
    registry_getitem (ARRHENIUS_METHOD_REGISTRY pkg) (method_arrhenius a);
  arrhenius_daily ←
    arrhenius_class (pm_env pmodel)
      (plant_T_ref (pmodel_const (pm_env pmodel))) (core_const (env a));
  fv ← calculate_arrhenius_factor arrhenius_daily
         (arrhenius_vcmax (pmodel_const (env a)));
  vcmax25_opt' ← nd_map2 div (vcmax pmodel) fv;
  fj ← calculate_arrhenius_factor arrhenius_daily
         (arrhenius_jmax (pmodel_const (env a)));
  jmax25_opt' ← nd_map2 div (jmax pmodel) fj;
  Ok {| ac_c4 := c4; ac_kphio := kphio_sub; ac_pmodel_acclim := pmodel;
        ac_ppfd_acclim := ppfd_acclim'; ac_fapar_acclim := fapar_acclim';
        ac_vcmax25_opt := vcmax25_opt'; ac_jmax25_opt := jmax25_opt' |}.

Definition Seeds : Type :=
  option (ndslice T) * option (ndslice T) * option (ndslice T).

(** The check of [previous_realised] (lines 426-455). *)
Definition check_previous_realised (a : Args) : result Seeds :=
  match previous_realised a with
  | Some (p0, p1, p2) =>
      if negb (String.eqb (fill_kind a) "previous") then
        Raise (NotImplementedError
                 "Using previous_realised is only implemented for fill_kind = 'previous'")
      else
        tc0 ← getitem (tc (env a)) 0;
        let expected_shape := sl_shape tc0 in
        if negb (bool_decide (sl_shape p0 = expected_shape)
                 && bool_decide (sl_shape p1 = expected_shape)
                 && bool_decide (sl_shape p2 = expected_shape)) then
          Raise (ValueError
                   "`previous_realised` entries have wrong shape in Subdaily PModel")
        else Ok (Some p0, Some p1, Some p2)
  | None => Ok (None, None, None)
  end.

(** [(4 * kphio * iabs) / np.sqrt(1 + ((4 * kphio * iabs) / jmax) ** 2)]
    on one element; NumPy squares by one multiplication. *)
Definition J_of (kphio_v iabs_v jmax_v : T) : T :=
  let num := mul (mul four kphio_v) iabs_v in
  let ratio := div num jmax_v in
  div num (sqrt (add one (mul ratio ratio))).

(** [(subdaily_J / 4) * mj] on one element *)
Definition Aj_of (kphio_v iabs_v jmax_v mj_v : T) : T :=
  mul (div (J_of kphio_v iabs_v jmax_v) four) mj_v.

(** [subdaily_vcmax * mc] on one element *)
Definition Ac_of (vcmax_v mc_v : T) : T := mul vcmax_v mc_v.

(** [np.minimum(Aj, Ac) * k_c_molmass] on one element *)
Definition gpp_of (aj ac k : T) : T := mul (minimum aj ac) k.

(** Steps 5 to 8 and the assimilation (lines 457-547). *)
Definition realise (a : Args) (ac : Acclimation) (seeds : Seeds)
    : result SubdailyPModel :=
  let '(previous_xi_real, previous_vcmax25_real, previous_jmax25_real) :=
    seeds in
  xi_real' ←
    memory_effect (uninit pkg) (xi (optchi (ac_pmodel_acclim ac)))
      previous_xi_real (alpha a) (allow_holdover a);
  vcmax25_real' ←
    memory_effect (uninit pkg) (ac_vcmax25_opt ac) previous_vcmax25_real
      (alpha a) (allow_holdover a);
  jmax25_real' ←
    memory_effect (uninit pkg) (ac_jmax25_opt ac) previous_jmax25_real
      (alpha a) (allow_holdover a);
  subdaily_xi' ←
    fill_daily_to_subdaily (fs_scaler a) xi_real' previous_xi_real;
  subdaily_vcmax25' ←
    fill_daily_to_subdaily (fs_scaler a) vcmax25_real' previous_vcmax25_real;
  subdaily_jmax25' ←
    fill_daily_to_subdaily (fs_scaler a) jmax25_real' previous_jmax25_real;
  arrhenius_class ←
    registry_getitem (ARRHENIUS_METHOD_REGISTRY pkg) (method_arrhenius a);
  arrhenius_subdaily ←
    arrhenius_class (env a)
      (plant_T_ref (pmodel_const (pm_env (ac_pmodel_acclim ac))))
      (core_const (env a));
  fv ← calculate_arrhenius_factor arrhenius_subdaily
         (arrhenius_vcmax (pmodel_const (env a)));
  subdaily_vcmax' ← nd_map2 mul subdaily_vcmax25' fv;
  fj ← calculate_arrhenius_factor arrhenius_subdaily
         (arrhenius_jmax (pmodel_const (env a)));
  subdaily_jmax' ← nd_map2 mul subdaily_jmax25' fj;
  optchi_class ←
    registry_getitem (OPTIMAL_CHI_CLASS_REGISTRY pkg) (method_optchi a);
  oc ← optchi_new optchi_class (env a) (pmodel_const (env a));
  oc ← estimate_chi optchi_class oc subdaily_xi';
  subdaily_Ac' ← nd_map2 mul subdaily_vcmax' (mc oc);
  iabs ← nd_map2 mul (fapar a) (ppfd a);
  num ← nd_map2 mul (nd_map (mul four) (kphio (ac_kphio ac))) iabs;
  ratio ← nd_map2 div num subdaily_jmax';
  num' ← nd_map2 mul (nd_map (mul four) (kphio (ac_kphio ac))) iabs;
  subdaily_J ←
    nd_map2 div num'
      (nd_map sqrt (nd_map (add one) (nd_map (fun x => mul x x) ratio)));
  subdaily_Aj' ←
    nd_map2 mul (nd_map (fun x => div x four) subdaily_J) (mj oc);
  smaller ← nd_map2 minimum subdaily_Aj' subdaily_Ac';
  let gpp' :=
    nd_map (fun x => mul x (k_c_molmass (core_const (env a)))) smaller in
  Ok {| sp_datetimes := datetimes (fs_scaler a);
        sp_env := env a;
        sp_method_optchi := method_optchi a;
        sp_c4 := ac_c4 ac;
        sp_method_kphio := method_kphio a;
        sp_method_arrhenius := method_arrhenius a;
        sp_kphio := ac_kphio ac;
        pmodel_acclim := ac_pmodel_acclim ac;
        ppfd_acclim := ac_ppfd_acclim ac;
        fapar_acclim := ac_fapar_acclim ac;
        vcmax25_opt := ac_vcmax25_opt ac;
        jmax25_opt := ac_jmax25_opt ac;
        xi_real := xi_real';
        vcmax25_real := vcmax25_real';
        jmax25_real := jmax25_real';
        subdaily_xi := subdaily_xi';
        subdaily_vcmax25 := subdaily_vcmax25';
        subdaily_jmax25 := subdaily_jmax25';
        subdaily_vcmax := subdaily_vcmax';
        subdaily_jmax := subdaily_jmax';
        optimal_chi := oc;
        subdaily_Ac := subdaily_Ac';
        subdaily_Aj := subdaily_Aj';
        gpp := gpp' |}.

(** [SubdailyPModel(env, fs_scaler, fapar, ppfd, ...)] *)
Definition SubdailyPModel_init (a : Args) : result SubdailyPModel :=
  ac ← acclimate a;
  seeds ← check_previous_realised a;
  realise a ac seeds.
End Subdaily.

(** ** Specification-level definitions *)

Section Recursion.
Context {T : Type}.

(** Two optional elements combined, missing when either index is out of
    range. *)
Definition lift2 (f : T -> T -> T) (x y : option T) : option T :=
  x' ← x; y' ← y; Some (f x' y').

(** The realised slices that follow [prev], one per optimal slice. *)
Fixpoint recursion (step : T -> T -> T) (prev : list T)
    (optimal : list (list T)) : list (list T) :=
  match optimal with
  | [] => []
  | cur :: optimal' =>
      let r := zip_with step prev cur in
      r :: recursion step r optimal'
  end.
End Recursion.

Section RecursionOfMemoryEffect.
Context {T : Type} `{Arith T}.

(** The step the loop applies: the case table when a value is missing
    from [values], the plain weighted average otherwise. *)
Definition step_of (values : ndarray T) (alpha : T) : T -> T -> T :=
  if any_isnan values then holdover alpha else blend alpha.

(** The first realised slice. *)
Definition first_of (alpha : T) (previous_values : option (ndslice T))
    (v0 : list T) : list T :=
  match previous_values with
  | None => v0
  | Some previous => zip_with (blend alpha) (sl_data previous) v0
  end.
End RecursionOfMemoryEffect.

(** A time series without trailing axes. *)
Definition series (xs : list float) : ndarray float :=
  NDArray [] (map (fun x => [x]) xs).

(** A value of shape [()]. *)
Definition scalar (x : float) : ndslice float := NDSlice [] [x].

(** ** A small package and its inputs

    Stand-ins for the classes of the package, enough to run the
    constructor: every timestamp is a day of its own, the daily model
    returns constant arrays, and the Arrhenius factor is 2 everywhere. *)

Definition constant_like (x : float) (a : ndarray float) : ndarray float :=
  nd_map (fun _ => x) a.

Definition example_env (n : nat) : @PModelEnvironment float unit unit :=
  let s := series (replicate n 20%float) in
  {| tc := s;
     co2 := constant_like 400%float s;
     patm := constant_like 101325%float s;
     vpd := constant_like 1000%float s;
     optional := fun _ => None;
     pmodel_const :=
       {| plant_T_ref := 25%float; arrhenius_vcmax := tt;
          arrhenius_jmax := tt |};
     core_const := {| k_c_molmass := 12%float |};
     _bounds_checker := tt |}.

Definition example_scaler (n : nat) (window_set : bool)
    : @SubdailyScaler float :=
  {| datetimes := map Z.of_nat (seq 0 n);
     include := if window_set then Some (replicate n true) else None;
     get_daily_means := fun a _ => Ok a;
     fill_daily_to_subdaily := fun a _ => Ok a |}.

Definition example_optchi : @OptimalChiClass float unit unit :=
  {| is_c4 := false;
     optchi_requires := [];
     optchi_new := fun e _ =>
       Ok {| xi := constant_like 60%float (tc e);
             mc := constant_like 0.5%float (tc e);
             mj := constant_like 0.25%float (tc e) |};
     estimate_chi := fun oc xis =>
       Ok {| xi := xis; mc := mc oc; mj := mj oc |} |}.

Definition example_kphio : @QuantumYieldClass float unit unit :=
  {| kphio_requires := [];
     kphio_new := fun e _ reference =>
       Ok {| reference_kphio := default (series [0.125%float]) reference;
             kphio := constant_like 0.125%float (tc e) |} |}.

Definition example_pkg : @Package float unit unit :=
  {| OPTIMAL_CHI_CLASS_REGISTRY := {[ "prentice14" := example_optchi ]};
     QUANTUM_YIELD_CLASS_REGISTRY := {[ "temperature" := example_kphio ]};
     ARRHENIUS_METHOD_REGISTRY :=
       {[ "simple" :=
            fun e _ _ =>
              Ok {| calculate_arrhenius_factor := fun _ =>
                      Ok (constant_like 2%float (tc e)) |} ]};
     PModelEnvironment_new := fun d pc cc bc =>
       match d !! "tc", d !! "co2", d !! "patm", d !! "vpd" with
       | Some t, Some c, Some p, Some v =>
           Ok {| tc := t; co2 := c; patm := p; vpd := v;
                 optional := fun name => d !! name;
                 pmodel_const := pc; core_const := cc;
                 _bounds_checker := bc |}
       | _, _, _, _ => Raise (ValueError "missing forcing variable")
       end;
     PModel_new := fun e _ _ _ _ _ =>
       Ok {| pm_env := e;
             optchi := {| xi := constant_like 60%float (tc e);
                          mc := constant_like 0.5%float (tc e);
                          mj := constant_like 0.25%float (tc e) |};
             vcmax := constant_like 50%float (tc e);
             jmax := constant_like 100%float (tc e) |};
     estimate_productivity := fun pm _ _ => Ok pm;
     uninit := 0%float |}.

Definition example_args (n_datetimes n_forcing : nat) (window_set : bool)
    (fill : string)
    (seeds : option (ndslice float * ndslice float * ndslice float))
    (reference : option (ndarray float)) : @Args float unit unit :=
  let e := example_env n_forcing in
  {| env := e;
     fs_scaler := example_scaler n_datetimes window_set;
     fapar := constant_like 0.5%float (tc e);
     ppfd := constant_like 1000%float (tc e);
     method_optchi := "prentice14";
     method_jmaxlim := "wang17";
     method_kphio := "temperature";
     method_arrhenius := "simple";
     arg_reference_kphio := reference;
     alpha := 0.5%float;
     allow_holdover := false;
     allow_partial_data := false;
     fill_kind := fill;
     previous_realised := seeds |}.

(** A second package, in which the CO2-limitation multiplier is low, and
    inputs with a light series of their own: under low light the
    light-limited assimilation is the smaller stream, under high light
    the CO2-limited one. *)
Definition example_optchi_low_mc : @OptimalChiClass float unit unit :=
  {| is_c4 := false;
     optchi_requires := [];
     optchi_new := fun e _ =>
       Ok {| xi := constant_like 60%float (tc e);
             mc := constant_like 0.0625%float (tc e);
             mj := constant_like 0.25%float (tc e) |};
     estimate_chi := fun oc xis =>
       Ok {| xi := xis; mc := mc oc; mj := mj oc |} |}.

Definition example_pkg_low_mc : @Package float unit unit :=
  {| OPTIMAL_CHI_CLASS_REGISTRY := {[ "prentice14" := example_optchi_low_mc ]};
     QUANTUM_YIELD_CLASS_REGISTRY := QUANTUM_YIELD_CLASS_REGISTRY example_pkg;
     ARRHENIUS_METHOD_REGISTRY := ARRHENIUS_METHOD_REGISTRY example_pkg;
     PModelEnvironment_new := PModelEnvironment_new example_pkg;
     PModel_new := PModel_new example_pkg;
     estimate_productivity := estimate_productivity example_pkg;
     uninit := uninit example_pkg |}.

Definition example_args_light (ppfd_values : list float)
    : @Args float unit unit :=
  let n := length ppfd_values in
  let a := example_args n n true "previous" None None in
  {| env := env a;
     fs_scaler := fs_scaler a;
     fapar := fapar a;
     ppfd := series ppfd_values;
     method_optchi := method_optchi a;
     method_jmaxlim := method_jmaxlim a;
     method_kphio := method_kphio a;
     method_arrhenius := method_arrhenius a;
     arg_reference_kphio := arg_reference_kphio a;
     alpha := alpha a;
     allow_holdover := allow_holdover a;
     allow_partial_data := allow_partial_data a;
     fill_kind := fill_kind a;
     previous_realised := previous_realised a |}.

(** ** The remaining functions of subdaily.py *)

(** The attributes of a fitted [PModel] that
    [convert_pmodel_to_subdaily] reads. *)
Record FittedPModel {T Coef BoundsChecker : Type} : Type := {
  fp_env : @PModelEnvironment T Coef BoundsChecker;
  fp_fapar : ndarray T;
  fp_ppfd : ndarray T;
  fp_method_optchi : string;
  fp_method_jmaxlim : string;
  fp_method_kphio : string;
  (** [pmodel.kphio.reference_kphio] *)
  fp_reference_kphio : ndarray T
}.

(** [convert_pmodel_to_subdaily(pmodel, fs_scaler, alpha, allow_holdover,
    fill_kind)]: the arguments it does not pass take the defaults of
    [SubdailyPModel.__init__]. *)
Definition convert_pmodel_to_subdaily {T : Type} {A : Arith T}
    {Coef BoundsChecker : Type} (pkg : @Package T Coef BoundsChecker)
    (pmodel : @FittedPModel T Coef BoundsChecker)
    (scaler : @SubdailyScaler T) (alpha_v : T) (holdover_allowed : bool)
    (fill : string) : result (@SubdailyPModel T Coef BoundsChecker) :=
  SubdailyPModel_init pkg
    {| env := fp_env pmodel;
       fs_scaler := scaler;
       fapar := fp_fapar pmodel;
       ppfd := fp_ppfd pmodel;
       method_optchi := fp_method_optchi pmodel;
       method_jmaxlim := fp_method_jmaxlim pmodel;
       method_kphio := fp_method_kphio pmodel;
       method_arrhenius := "simple";
       arg_reference_kphio := Some (fp_reference_kphio pmodel);
       alpha := alpha_v;
       allow_holdover := holdover_allowed;
       allow_partial_data := false;
       fill_kind := fill;
       previous_realised := None |}.

(** The arguments of the constructor with another [fill_kind]. *)
Definition with_fill_kind {T Coef BoundsChecker : Type} (fill : string)
    (a : @Args T Coef BoundsChecker) : @Args T Coef BoundsChecker :=
  {| env := env a;
     fs_scaler := fs_scaler a;
     fapar := fapar a;
     ppfd := ppfd a;
     method_optchi := method_optchi a;
     method_jmaxlim := method_jmaxlim a;
     method_kphio := method_kphio a;
     method_arrhenius := method_arrhenius a;
     arg_reference_kphio := arg_reference_kphio a;
     alpha := alpha a;
     allow_holdover := allow_holdover a;
     allow_partial_data := allow_partial_data a;
     fill_kind := fill;
     previous_realised := previous_realised a |}.

(** [subdaily_ci] of [SubdailyPModel_JAMES] on one element (lines
    756-758):
    [(xi * ca + gammastar * sqrt(vpd)) / (xi + sqrt(vpd))], where [xi],
    [ca] and [gammastar] are the daily values of the acclimation model
    filled to the subdaily scale and [vpd] is the subdaily one. *)
Definition subdaily_ci_JAMES {T : Type} {A : Arith T}
    (xi_v ca_v gammastar_v vpd_v : T) : T :=
  div (add (mul xi_v ca_v) (mul gammastar_v (sqrt vpd_v)))
    (add xi_v (sqrt vpd_v)).

(** [subdaily_Ac] of [SubdailyPModel_JAMES] on one element (lines
    795-799): [vcmax * (ci - gammastar) / (ci + kmm)], where [gammastar]
    and [kmm] are those of the subdaily environment, not the daily values
    that [subdaily_ci] is computed from. *)
Definition subdaily_Ac_JAMES {T : Type} {A : Arith T}
    (vcmax_v ci_v gammastar_v kmm_v : T) : T :=
  div (mul vcmax_v (sub ci_v gammastar_v)) (add ci_v kmm_v).

(** ** pyrealm.pmodel.functions

    The functions of [src/pyrealm/pmodel/functions.py], on one element of
    their array arguments: NumPy applies each of them elementwise. The
    check that the arguments have congruent shapes ([check_input_shapes],
    from another module) is on whole arrays and has no counterpart on one
    element. [np.exp] and [np.power] have no binary64 counterpart in the
    library: the functions are stated over an interface that the real
    numbers implement. *)

Class Elementary (T : Type) : Type := {
  np_exp : T -> T;
  (** [np.power(x, y)] for a positive [x] *)
  np_power : T -> T -> T;
  zero : T;
  (** the literal [1e-6] *)
  millionth : T
}.

#[global] Instance real_elementary : Elementary R := {
  np_exp := exp;
  np_power := Rpower;
  zero := 0%R;
  millionth := (1 / 1000000)%R
}.

Module Functions.
Section Functions.
Context {T : Type} {A : Arith T} {E : Elementary T}.

(** The fields of [pyrealm.constants.CoreConst] the functions read. *)
Record CoreConst : Type := {
  k_R : T;
  k_Po : T;
  k_To : T;
  k_CtoK : T;
  k_co : T
}.

(** The fields of [pyrealm.constants.PModelConst] the functions read. *)
Record PModelConst : Type := {
  plant_T_ref : T;
  heskel_b : T;
  heskel_c : T;
  kphio_C3 : T * T * T;
  kphio_C4 : T * T * T;
  bernacchi_gs25_0 : T;
  bernacchi_dha : T;
  bernacchi_kc25 : T;
  bernacchi_ko25 : T;
  bernacchi_dhac : T;
  bernacchi_dhao : T;
  boyd_kp25_c4 : T;
  boyd_dhac_c4 : T;
  soilmstress_a : T;
  soilmstress_b : T;
  soilmstress_theta0 : T;
  soilmstress_thetastar : T;
  soilm_mengoli_y_a : T;
  soilm_mengoli_y_b : T;
  soilm_mengoli_psi_a : T;
  soilm_mengoli_psi_b : T
}.

(** [CoreConst()], the default of the argument [core_const]: the value a
    call takes when it does not pass [core_const] on. *)
Variable default_core_const : CoreConst.

(** [np.maximum], and [np.clip(x, lo, hi)] as the minimum with [hi] of
    the maximum with [lo]. *)
Definition maximum (x y : T) : T :=
  if leb y x || isnan x then x else y.

Definition clip (x lo hi : T) : T := minimum (maximum x lo) hi.

(** [x ** 2] *)
Definition square (x : T) : T := mul x x.

Definition calculate_simple_arrhenius_factor (tk tk_ref ha : T)
    (core_const : CoreConst) : T :=
  np_exp (div (mul ha (sub tk tk_ref))
            (mul (mul tk_ref (k_R core_const)) tk)).

Definition calculate_kattge_knorr_arrhenius_factor
    (tk_leaf tk_ref tc_growth ha hd entropy_intercept entropy_slope : T)
    (core_const : CoreConst) : T :=
  let entropy := add entropy_intercept (mul entropy_slope tc_growth) in
  let fva :=
    calculate_simple_arrhenius_factor tk_leaf tk_ref ha default_core_const in
  let fvb :=
    div (add one
           (np_exp (div (sub (mul tk_ref entropy) hd)
                      (mul (k_R core_const) tk_ref))))
      (add one
         (np_exp (div (sub (mul tk_leaf entropy) hd)
                    (mul (k_R core_const) tk_leaf)))) in
  mul fva fvb.

Definition calc_ftemp_inst_rd (tc : T) (pmodel_const : PModelConst) : T :=
  np_exp
    (sub (mul (heskel_b pmodel_const) (sub tc (plant_T_ref pmodel_const)))
       (mul (heskel_c pmodel_const)
          (sub (square tc) (square (plant_T_ref pmodel_const))))).

Definition calc_ftemp_kphio (tc : T) (c4 : bool)
    (pmodel_const : PModelConst) : T :=
  let coef := if c4 then kphio_C4 pmodel_const else kphio_C3 pmodel_const in
  let '(c0, c1, c2) := coef in
  let ftemp := add (add c0 (mul c1 tc)) (mul c2 (square tc)) in
  maximum ftemp zero.

Definition calc_gammastar (tc patm : T) (pmodel_const : PModelConst)
    (core_const : CoreConst) : T :=
  mul (div (mul (bernacchi_gs25_0 pmodel_const) patm) (k_Po core_const))
    (calculate_simple_arrhenius_factor
       (add tc (k_CtoK core_const))
       (add (plant_T_ref pmodel_const) (k_CtoK core_const))
       (bernacchi_dha pmodel_const) default_core_const).

(** [calc_viscosity_h2o] is a function of [pyrealm.core.water]. *)
Definition calc_ns_star (calc_viscosity_h2o : T -> T -> CoreConst -> T)
    (tc patm : T) (core_const : CoreConst) : T :=
  let visc_env := calc_viscosity_h2o tc patm core_const in
  let visc_std :=
    calc_viscosity_h2o (sub (k_To core_const) (k_CtoK core_const))
      (k_Po core_const) core_const in
  div visc_env visc_std.

Definition calc_kmm (tc patm : T) (pmodel_const : PModelConst)
    (core_const : CoreConst) : T :=
  let tk := add tc (k_CtoK core_const) in
  let kc :=
    mul (bernacchi_kc25 pmodel_const)
      (calculate_simple_arrhenius_factor tk
         (add (plant_T_ref pmodel_const) (k_CtoK core_const))
         (bernacchi_dhac pmodel_const) default_core_const) in
  let ko :=
    mul (bernacchi_ko25 pmodel_const)
      (calculate_simple_arrhenius_factor tk
         (add (plant_T_ref pmodel_const) (k_CtoK core_const))
         (bernacchi_dhao pmodel_const) default_core_const) in
  let po := mul (mul (k_co core_const) millionth) patm in
  mul kc (add one (div po ko)).

Definition calc_kp_c4 (tc patm : T) (pmodel_const : PModelConst)
    (core_const : CoreConst) : T :=
  mul (boyd_kp25_c4 pmodel_const)
    (calculate_simple_arrhenius_factor
       (add tc (k_CtoK core_const))
       (add (plant_T_ref pmodel_const) (k_CtoK core_const))
       (boyd_dhac_c4 pmodel_const) default_core_const).

Definition calc_soilmstress_stocker (soilm meanalpha : T)
    (pmodel_const : PModelConst) : T :=
  let y0 :=
    add (soilmstress_a pmodel_const)
      (mul (soilmstress_b pmodel_const) meanalpha) in
  let beta :=
    div (sub one y0)
      (square (sub (soilmstress_theta0 pmodel_const)
                 (soilmstress_thetastar pmodel_const))) in
  let outstress :=
    sub one
      (mul beta (square (sub soilm (soilmstress_thetastar pmodel_const)))) in
  let outstress :=
    if leb soilm (soilmstress_thetastar pmodel_const) then outstress
    else one in
  clip outstress zero one.

Definition calc_soilmstress_mengoli (soilm aridity_index : T)
    (pmodel_const : PModelConst) : T :=
  let y :=
    minimum
      (mul (soilm_mengoli_y_a pmodel_const)
         (np_power aridity_index (soilm_mengoli_y_b pmodel_const)))
      one in
  let psi :=
    minimum
      (mul (soilm_mengoli_psi_a pmodel_const)
         (np_power aridity_index (soilm_mengoli_psi_b pmodel_const)))
      one in
  if leb psi soilm then y else mul (div y psi) soilm.

Definition calc_co2_to_ca (co2 patm : T) : T :=
  mul (mul millionth co2) patm.
End Functions.
End Functions.

(** The arguments of the constructor with other method names. *)
Definition with_methods {T Coef BoundsChecker : Type}
    (optchi_name kphio_name arrhenius_name : string)
    (a : @Args T Coef BoundsChecker) : @Args T Coef BoundsChecker :=
  {| env := env a;
     fs_scaler := fs_scaler a;
     fapar := fapar a;
     ppfd := ppfd a;
     method_optchi := optchi_name;
     method_jmaxlim := method_jmaxlim a;
     method_kphio := kphio_name;
     method_arrhenius := arrhenius_name;
     arg_reference_kphio := arg_reference_kphio a;
     alpha := alpha a;
     allow_holdover := allow_holdover a;
     allow_partial_data := allow_partial_data a;
     fill_kind := fill_kind a;
     previous_realised := previous_realised a |}.

(** Constants to evaluate the functions at, over the reals. *)
Definition example_core_const : @Functions.CoreConst R :=
  {| Functions.k_R := 8%R;
     Functions.k_Po := 101325%R;
     Functions.k_To := 298%R;
     Functions.k_CtoK := 273%R;
     Functions.k_co := 209476%R |}.

Definition example_pmodel_const : @Functions.PModelConst R :=
  {| Functions.plant_T_ref := 25%R;
     Functions.heskel_b := (1 / 10)%R;
     Functions.heskel_c := (1 / 2000)%R;
     Functions.kphio_C3 := ((352 / 1000)%R, (22 / 1000)%R, (- (34 / 100000))%R);
     Functions.kphio_C4 := ((- (64 / 1000))%R, (3 / 100)%R, (- (464 / 1000000))%R);
     Functions.bernacchi_gs25_0 := 4%R;
     Functions.bernacchi_dha := 37830%R;
     Functions.bernacchi_kc25 := 40%R;
     Functions.bernacchi_ko25 := 27480%R;
     Functions.bernacchi_dhac := 79430%R;
     Functions.bernacchi_dhao := 36380%R;
     Functions.boyd_kp25_c4 := 16%R;
     Functions.boyd_dhac_c4 := 36300%R;
     Functions.soilmstress_a := 0%R;
     Functions.soilmstress_b := (733 / 1000)%R;
     Functions.soilmstress_theta0 := 0%R;
     Functions.soilmstress_thetastar := (6 / 10)%R;
     Functions.soilm_mengoli_y_a := (62 / 100)%R;
     Functions.soilm_mengoli_y_b := (- (45 / 100))%R;
     Functions.soilm_mengoli_psi_a := (34 / 100)%R;
     Functions.soilm_mengoli_psi_b := (- (6 / 10))%R |}.

(** * Properties *)

(** ** The loop of memory_effect *)

Section LoopFacts.
Context {T : Type}.
Implicit Types (step : T -> T -> T) (rows : list (list T)).

Lemma for_range_nil {St : Type} lo (body : nat -> St -> result St) s :
  for_range lo lo body s = Ok s.
Proof. unfold for_range. by rewrite Nat.sub_diag. Qed.

Lemma for_range_snoc {St : Type} lo hi (body : nat -> St -> result St) s :
  lo <= hi ->
  for_range lo (S hi) body s = for_range lo hi body s ≫= body hi.
Proof.
  intros Hle. unfold for_range.
  replace (S hi - lo) with (S (hi - lo)) by lia.
  rewrite seq_S, foldl_app. simpl.
  by replace (lo + (hi - lo)) with hi by lia.
Qed.

Lemma recursion_length step prev optimal :
  length (recursion step prev optimal) = length optimal.
Proof.
  revert prev. induction optimal as [|cur optimal IH]; intros prev; simpl;
    [done | by rewrite IH].
Qed.

Lemma recursion_lookup step r0 optimal t :
  (r0 :: recursion step r0 optimal) !! S t
  = match (r0 :: recursion step r0 optimal) !! t, optimal !! t with
    | Some p, Some c => Some (zip_with step p c)
    | _, _ => None
    end.
Proof.
  revert r0 t. induction optimal as [|cur optimal IH]; intros r0 t.
  - simpl. destruct t; simpl; [done|]. by destruct t.
  - destruct t as [|t]; [done|].
    change ((r0 :: recursion step r0 (cur :: optimal)) !! S (S t))
      with ((zip_with step r0 cur
               :: recursion step (zip_with step r0 cur) optimal) !! S t).
    rewrite IH. done.
Qed.

(** After the iterations [1 .. k-1] the first [k] slices are final and
    the others untouched. *)
Lemma loop_invariant step (values : ndarray T) v0 optimal r0 rows k :
  slices values = v0 :: optimal ->
  length rows = length optimal ->
  1 <= k <= S (length optimal) ->
  for_range 1 k
    (fun idx mv =>
       prev ← getitem mv (idx - 1);
       cur ← getitem values idx;
       r ← slice_map2 step prev cur;
       setitem mv idx r)
    (NDArray (trailing values) (r0 :: rows))
  = Ok (NDArray (trailing values)
          (take k (r0 :: recursion step r0 optimal) ++ drop k (r0 :: rows))).
Proof.
  intros Hv Hlen [Hk1 Hk2].
  induction k as [|k IH]; [lia|].
  destruct (decide (k = 0)) as [->|Hk0].
  { rewrite for_range_nil. simpl. by rewrite ?take_0, ?drop_0. }
  rewrite for_range_snoc by lia.
  rewrite IH by lia. clear IH.
  set (full := r0 :: recursion step r0 optimal).
  assert (Hfull : length full = S (length optimal)).
  { unfold full. simpl. by rewrite recursion_length. }
  destruct k as [|k]; [done|].
  replace (S k - 1) with k by lia.
  assert (is_Some (full !! k)) as [p Hp] by (apply lookup_lt_is_Some; lia).
  assert (is_Some (optimal !! k)) as [c Hc] by (apply lookup_lt_is_Some; lia).
  assert (Hnext : full !! S k = Some (zip_with step p c)).
  { unfold full in *. rewrite recursion_lookup, Hp, Hc. done. }
  assert (Hget : (take (S k) full
                    ++ drop (S k) (r0 :: rows)) !! k = Some p).
  { rewrite lookup_app_l by (rewrite length_take; lia).
    by rewrite lookup_take_lt by lia. }
  assert (Hcur : slices values !! S k = Some c) by (by rewrite Hv).
  cbn [mbind result_bind]. replace (S k - 1) with k by lia.
  unfold getitem. cbn [slices trailing]. rewrite Hget, Hcur.
  cbn [mbind result_bind].
  unfold slice_map2. cbn [sl_shape sl_data].
  rewrite decide_True by done. cbn [mbind result_bind].
  unfold setitem, len. cbn [slices trailing sl_shape sl_data].
  rewrite decide_True.
  2:{ rewrite length_app, length_take, length_drop, Hfull.
      change (length (r0 :: rows)) with (S (length rows)). lia. }
  rewrite decide_True by done.
  do 2 f_equal.
  rewrite insert_app_r_alt by (rewrite length_take; lia).
  rewrite length_take.
  replace (S k `min` length full) with (S k) by lia.
  rewrite Nat.sub_diag.
  rewrite (take_S_r full (S k) _ Hnext).
  rewrite <- app_assoc. f_equal.
  assert (is_Some ((r0 :: rows) !! S k)) as [x Hx]
    by (apply lookup_lt_is_Some; simpl; lia).
  rewrite (drop_S _ _ _ Hx). done.
Qed.
End LoopFacts.

(** ** memory_effect in closed form *)

Section MemoryEffectFacts.
Context {T : Type} `{Arith T}.
Implicit Types (values : ndarray T) (alpha uninit : T).

Lemma loop_complete step values v0 optimal r0 rows :
  slices values = v0 :: optimal ->
  length rows = length optimal ->
  for_range 1 (S (length optimal))
    (fun idx mv =>
       prev ← getitem mv (idx - 1);
       cur ← getitem values idx;
       r ← slice_map2 step prev cur;
       setitem mv idx r)
    (NDArray (trailing values) (r0 :: rows))
  = Ok (NDArray (trailing values) (r0 :: recursion step r0 optimal)).
Proof.
  intros Hv Hlen.
  rewrite (loop_invariant step values v0 optimal r0 rows) by (done || lia).
  do 2 f_equal.
  rewrite take_ge by (simpl; rewrite recursion_length; lia).
  rewrite drop_ge by (simpl; lia).
  by rewrite app_nil_r.
Qed.

Lemma memory_effect_closed uninit values previous_values alpha allow_holdover
    v0 optimal :
  slices values = v0 :: optimal ->
  any_isnan values && negb allow_holdover = false ->
  (forall previous, previous_values = Some previous ->
                    sl_shape previous = trailing values) ->
  memory_effect uninit values previous_values alpha allow_holdover
  = Ok (NDArray (trailing values)
          (first_of alpha previous_values v0
             :: recursion (step_of values alpha)
                  (first_of alpha previous_values v0) optimal)).
Proof.
  intros Hv Hnan Hshape.
  set (rows := map (fun r => replicate (length r) uninit) optimal).
  assert (Hrows : length rows = length optimal)
    by (unfold rows; by rewrite length_map).
  assert (Hg0 : getitem values 0 = Ok (NDSlice (trailing values) v0))
    by (unfold getitem; by rewrite Hv).
  assert (He : empty_like uninit values
               = NDArray (trailing values)
                   (replicate (length v0) uninit :: rows))
    by (unfold empty_like; by rewrite Hv).
  unfold memory_effect. rewrite Hnan, Hg0, He.
  assert (Hfirst :
    match previous_values with
    | None =>
        v0' ← Ok (NDSlice (trailing values) v0);
        setitem (NDArray (trailing values)
                   (replicate (length v0) uninit :: rows)) 0 v0'
    | Some previous =>
        v0' ← Ok (NDSlice (trailing values) v0);
        r0 ← slice_map2 (blend alpha) previous v0';
        setitem (NDArray (trailing values)
                   (replicate (length v0) uninit :: rows)) 0 r0
    end
    = Ok (NDArray (trailing values)
            (first_of alpha previous_values v0 :: rows))).
  { destruct previous_values as [previous|]; cbn [mbind result_bind first_of].
    - unfold slice_map2. cbn [sl_shape sl_data].
      rewrite decide_True by (by apply Hshape).
      cbn [mbind result_bind]. unfold setitem, len.
      cbn [slices trailing sl_shape].
      rewrite decide_True by (simpl; lia).
      rewrite decide_True by (by apply Hshape). done.
    - unfold setitem, len. cbn [slices trailing sl_shape].
      rewrite decide_True by (simpl; lia).
      by rewrite decide_True. }
  rewrite Hfirst. cbn [mbind result_bind].
  unfold len at 1 2. cbn [slices length]. rewrite Hrows.
  unfold step_of.
  destruct (any_isnan values); cbn [negb];
    by apply (loop_complete _ values v0).
Qed.

Lemma memory_effect_empty uninit values previous_values alpha allow_holdover :
  slices values = [] ->
  memory_effect uninit values previous_values alpha allow_holdover
  = Raise (IndexError "index is out of bounds for axis 0").
Proof.
  intros Hv. unfold memory_effect, any_isnan, getitem. rewrite Hv.
  simpl. by destruct previous_values.
Qed.

Lemma any_isnan_spec values :
  any_isnan values = true <->
  exists t j v, element values t j = Some v /\ isnan v = true.
Proof.
  unfold any_isnan, element. rewrite existsb_exists. split.
  - intros (r & Hr & Hex). apply existsb_exists in Hex as (v & Hv & Hnan).
    apply list_elem_of_In, list_elem_of_lookup in Hr as [t Ht].
    apply list_elem_of_In, list_elem_of_lookup in Hv as [j Hj].
    exists t, j, v. rewrite Ht. simpl. done.
  - intros (t & j & v & Hel & Hnan).
    destruct (slices values !! t) as [r|] eqn:Hr; [|done]. simpl in Hel.
    exists r. split.
    + apply list_elem_of_In, list_elem_of_lookup. by exists t.
    + apply existsb_exists. exists v. split; [|done].
      apply list_elem_of_In, list_elem_of_lookup. by exists j.
Qed.

(** Element by element, the closed form is the recursion. *)
Lemma element_recursion tr (step : T -> T -> T) (r0 v0 : list T) optimal t j :
  element (NDArray tr (r0 :: recursion step r0 optimal)) (S t) j
  = lift2 step (element (NDArray tr (r0 :: recursion step r0 optimal)) t j)
      (element (NDArray tr (v0 :: optimal)) (S t) j).
Proof.
  unfold element, lift2. cbn [slices].
  rewrite recursion_lookup.
  change ((v0 :: optimal) !! S t) with (optimal !! t).
  destruct ((r0 :: recursion step r0 optimal) !! t) as [p|]; [|done].
  destruct (optimal !! t) as [c|]; cbn [mbind option_bind].
  - rewrite lookup_zip_with. done.
  - by destruct (p !! j).
Qed.

End MemoryEffectFacts.

(** ** Missing values in binary64 *)

Section FloatNaN.
Local Open Scope float_scope.

Lemma is_nan_Prim2SF x : is_nan x = true <-> Prim2SF x = S754_nan.
Proof.
  unfold is_nan. rewrite FloatAxioms.eqb_spec. unfold SFeqb.
  destruct (Prim2SF x) as [s|s| |s m e]; simpl.
  - split; [discriminate|discriminate].
  - split; [|discriminate]. by destruct s.
  - done.
  - split; [|discriminate].
    rewrite Z.compare_refl, Pos.compare_cont_refl.
    by destruct s.
Qed.

Lemma mul_nan_l x y : is_nan x = true -> is_nan (x * y) = true.
Proof.
  rewrite !is_nan_Prim2SF, mul_spec. intros ->. done.
Qed.

Lemma mul_nan_r x y : is_nan y = true -> is_nan (x * y) = true.
Proof.
  rewrite !is_nan_Prim2SF, mul_spec. intros ->.
  by destruct (Prim2SF x).
Qed.

Lemma add_nan_l x y : is_nan x = true -> is_nan (x + y) = true.
Proof.
  rewrite !is_nan_Prim2SF, add_spec. intros ->. done.
Qed.

Lemma add_nan_r x y : is_nan y = true -> is_nan (x + y) = true.
Proof.
  rewrite !is_nan_Prim2SF, add_spec. intros ->.
  by destruct (Prim2SF x).
Qed.

(** A missing operand makes the weighted average missing. *)
Lemma blend_nan alpha prev cur :
  is_nan prev = true \/ is_nan cur = true ->
  is_nan (blend alpha prev cur) = true.
Proof.
  unfold blend. cbn [add mul sub one float_arith].
  intros [Hp|Hc].
  - by apply add_nan_l, mul_nan_l.
  - by apply add_nan_r, mul_nan_l.
Qed.
End FloatNaN.

(** ** What memory_effect returns *)

Section MemoryEffectResult.
Context {T : Type} `{Arith T}.
Implicit Types (values : ndarray T) (alpha uninit : T).

Lemma nonempty_slices values :
  0 < len values -> exists v0 optimal, slices values = v0 :: optimal.
Proof.
  unfold len. destruct (slices values) as [|v0 optimal]; simpl; [lia|].
  intros _. by exists v0, optimal.
Qed.

(** Whenever the check of missing values passes on a non-empty input,
    the result is the recursion, element by element. *)
Lemma memory_effect_elements uninit values previous_values alpha
    allow_holdover :
  0 < len values ->
  any_isnan values && negb allow_holdover = false ->
  (forall previous, previous_values = Some previous ->
                    sl_shape previous = trailing values) ->
  exists R,
    memory_effect uninit values previous_values alpha allow_holdover = Ok R
    /\ trailing R = trailing values
    /\ len R = len values
    /\ (forall j,
          element R 0 j
          = match previous_values with
            | None => element values 0 j
            | Some previous =>
                lift2 (blend alpha) (sl_data previous !! j)
                  (element values 0 j)
            end)
    /\ (forall t j,
          0 < t ->
          element R t j
          = lift2 (step_of values alpha) (element R (t - 1) j)
              (element values t j)).
Proof.
  intros Hlen Hnan Hshape.
  destruct (nonempty_slices values Hlen) as (v0 & optimal & Hv).
  eexists. split; [by apply (memory_effect_closed _ _ _ _ _ v0 optimal)|].
  split; [done|]. split.
  { unfold len. cbn [slices]. rewrite Hv. simpl. by rewrite recursion_length. }
  split.
  - intros j. unfold element at 1. cbn [slices lookup list_lookup].
    cbn [mbind option_bind].
    destruct previous_values as [previous|]; cbn [first_of].
    + rewrite lookup_zip_with. unfold element. by rewrite Hv.
    + unfold element. by rewrite Hv.
  - intros [|t] j Ht; [lia|].
    replace (S t - 1) with t by lia.
    rewrite (element_recursion _ _ _ v0).
    f_equal. unfold element. cbn [slices]. by rewrite Hv.
Qed.

End MemoryEffectResult.



(** The case table, on the inputs it is applied to: with holdover allowed
    and a value missing from the input, every step [t > 0] follows it. *)
Lemma memory_effect_holdover_table :
  (forall (T : Type) (A : Arith T) (uninit : T) (values : ndarray T)
          (previous_values : option (ndslice T)) (alpha : T),
      0 < len values ->
      any_isnan values = true ->
      (forall previous, previous_values = Some previous ->
                        sl_shape previous = trailing values) ->
      exists R,
        memory_effect uninit values previous_values alpha true = Ok R
        /\ len R = len values
        /\ (forall t j,
              0 < t ->
              element R t j
              = lift2 (holdover alpha) (element R (t - 1) j)
                  (element values t j)))
  /\ memory_effect 0%float (series [1; nan; 3]%float) None 0.5%float true
     = Ok (series [1; 1; 2]%float).
Proof.
  split; [|vm_compute; reflexivity].
  intros T A uninit values previous_values alpha Hlen Hnan Hseed.
  destruct (memory_effect_elements uninit values previous_values alpha true
              Hlen) as (R & Hrun & _ & Hn & _ & Hrec).
  { by rewrite andb_false_r. }
  { done. }
  exists R. repeat split; try done.
  intros t j Ht. rewrite (Hrec t j Ht). unfold step_of. by rewrite Hnan.
Qed.

(** Claim C2, where the program departs from it. With holdover allowed
    but no value missing from the input, the loop takes the plain
    weighted average at every step, also after a missing realised value:
    seeded with a missing value, [[1.0, 2.0]] gives [[nan, nan]], and
    [[inf, -inf, 1.0]] gives [[inf, nan, nan]], where the case table gives
    [2.0] and [1.0] for the last element. *)
Theorem memory_effect_holdover_skipped_without_missing_input :
  memory_effect 0%float (series [1; 2]%float) (Some (scalar nan)) 0.5%float true
  = Ok (series [nan; nan]%float)
  /\ holdover 0.5%float nan 2%float = 2%float
  /\ memory_effect 0%float (series [infinity; neg_infinity; 1]%float) None
       0.5%float true
     = Ok (series [infinity; nan; nan]%float)
  /\ holdover 0.5%float nan 1%float = 1%float.
Proof. repeat split; vm_compute; reflexivity. Qed.

(** Claim C3. An input with a missing entry anywhere, passed without
    holdover, raises the [ValueError] of the check of missing values,
    with or without a seed. *)
Theorem memory_effect_missing_without_holdover :
  forall (T : Type) (A : Arith T) (uninit : T) (values : ndarray T)
         (previous_values : option (ndslice T)) (alpha : T),
    (exists t j v, element values t j = Some v /\ isnan v = true) ->
    memory_effect uninit values previous_values alpha false
    = Raise (ValueError "Missing values in data passed to memory_effect").
Proof.
  intros T A uninit values previous_values alpha Hmissing.
  apply any_isnan_spec in Hmissing.
  unfold memory_effect. by rewrite Hmissing.
Qed.

Lemma memory_effect_missing_without_holdover_witness :
  memory_effect 0%float (series [1; 2; nan]%float) (Some (scalar 4%float))
    0.5%float false
  = Raise (ValueError "Missing values in data passed to memory_effect").
Proof.
  apply (memory_effect_missing_without_holdover float float_arith).
  exists 2, 0, nan. split; reflexivity.
Defined.

(** Claim C9. With a seed, the first realised value is always
    [seed * (1 - alpha) + values[0] * alpha], also when holdover is
    allowed: each element of the first realised slice is that binary64
    expression of the seed element and the first optimal element, and a
    missing seed element or a missing first optimal element makes the
    first realised element missing. *)
Theorem memory_effect_seeded_first_value :
  forall (uninit : float) (values : ndarray float) (previous : ndslice float)
         (alpha : float) (allow_holdover : bool),
    0 < len values ->
    sl_shape previous = trailing values ->
    (any_isnan values = true -> allow_holdover = true) ->
    exists R,
      memory_effect uninit values (Some previous) alpha allow_holdover = Ok R
      /\ (forall j,
            element R 0 j
            = lift2 (blend alpha) (sl_data previous !! j) (element values 0 j))
      /\ (forall j s v,
            sl_data previous !! j = Some s ->
            element values 0 j = Some v ->
            is_nan s = true \/ is_nan v = true ->
            exists r, element R 0 j = Some r /\ is_nan r = true)
      /\ (forall j s v,
            sl_data previous !! j = Some s ->
            element values 0 j = Some v ->
            element R 0 j = Some (s * (1 - alpha) + v * alpha)%float).
Proof.
  intros uninit values previous alpha allow_holdover Hlen Hshape Hallowed.
  destruct (memory_effect_elements uninit values (Some previous) alpha
              allow_holdover Hlen) as (R & Hrun & _ & _ & H0 & _).
  { destruct (any_isnan values); [|done]. by rewrite Hallowed. }
  { by intros ? [= <-]. }
  exists R. repeat split; try done.
  - intros j s v Hs Hv Hnan. exists (blend alpha s v). split.
    + by rewrite H0, Hs, Hv.
    + by apply blend_nan.
  - intros j s v Hs Hv. by rewrite H0, Hs, Hv.
Qed.

Lemma memory_effect_seeded_first_value_witness :
  exists R,
    memory_effect 0%float (NDArray [2] [[3; nan]; [5; 7]]%float)
      (Some (NDSlice [2] [1; 1]%float)) 0.5%float true = Ok R
    /\ element R 0 0 = Some 2%float
    /\ exists r, element R 0 1 = Some r /\ is_nan r = true.
Proof.
  destruct (memory_effect_seeded_first_value 0%float
              (NDArray [2] [[3; nan]; [5; 7]]%float)
              (NDSlice [2] [1; 1]%float) 0.5%float true)
    as (R & Hrun & _ & Hnan & Hvalue).
  - vm_compute. lia.
  - reflexivity.
  - reflexivity.
  - exists R. split; [exact Hrun|]. split.
    + apply (Hvalue 0 1%float 3%float); reflexivity.
    + apply (Hnan 1 1%float nan); [reflexivity|reflexivity|by right].
Defined.

(** Claim C10. An input whose time axis is empty raises an [IndexError]:
    nothing is returned, with or without a seed. *)
Theorem memory_effect_empty_time_axis :
  forall (T : Type) (A : Arith T) (uninit : T) (values : ndarray T)
         (previous_values : option (ndslice T)) (alpha : T)
         (allow_holdover : bool),
    len values = 0 ->
    memory_effect uninit values previous_values alpha allow_holdover
    = Raise (IndexError "index is out of bounds for axis 0").
Proof.
  intros T A uninit values previous_values alpha allow_holdover Hlen.
  apply memory_effect_empty. unfold len in Hlen.
  by destruct (slices values).
Qed.

Lemma memory_effect_empty_time_axis_witness :
  memory_effect 0%float (NDArray [3] []) None 0.5%float true
  = Raise (IndexError "index is out of bounds for axis 0").
Proof.
  apply (memory_effect_empty_time_axis float float_arith). reflexivity.
Defined.

(** ** Elementwise operations *)

Section ElementFacts.
Context {T : Type}.
Implicit Types (a b c : ndarray T).

Lemma element_nd_map (f : T -> T) a t j :
  element (nd_map f a) t j = f <$> element a t j.
Proof.
  unfold element, nd_map. cbn [slices].
  rewrite list_lookup_fmap.
  destruct (slices a !! t) as [r|]; [|done].
  cbn [fmap option_fmap option_map mbind option_bind].
  by rewrite list_lookup_fmap.
Qed.

Lemma element_nd_map2 (f : T -> T -> T) a b c t j :
  nd_map2 f a b = Ok c ->
  element c t j = lift2 f (element a t j) (element b t j).
Proof.
  unfold nd_map2. destruct (decide _); [|done]. intros [= <-].
  unfold element, lift2. cbn [slices].
  rewrite lookup_zip_with.
  destruct (slices a !! t) as [ra|]; [|done].
  destruct (slices b !! t) as [rb|]; cbn [mbind option_bind].
  - by rewrite lookup_zip_with.
  - by destruct (ra !! j).
Qed.

Lemma bind_Ok {X Y : Type} (m : result X) (f : X -> result Y) (y : Y) :
  m ≫= f = Ok y -> exists x, m = Ok x /\ f x = Ok y.
Proof. destruct m as [x|e]; [|done]. intros Hf. by exists x. Qed.
End ElementFacts.

(** Splits a successful sequence of steps into its steps. *)
Ltac bind_inv H :=
  repeat match type of H with
    | (_ ≫= _) = Ok _ =>
        let x := fresh "x" in
        let Hx := fresh "Hstep" in
        apply bind_Ok in H as (x & Hx & H)
    end.

(** ** The constructor of SubdailyPModel *)

Section SubdailyFacts.
Context {T : Type} {A : Arith T} {Coef BoundsChecker : Type}.
Variable pkg : @Package T Coef BoundsChecker.
Implicit Types (a : @Args T Coef BoundsChecker).

Lemma init_validate a e :
  validate pkg a = Raise e -> SubdailyPModel_init pkg a = Raise e.
Proof.
  intros Hv. unfold SubdailyPModel_init, acclimate. by rewrite Hv.
Qed.

Lemma validate_incongruent a :
  length (datetimes (fs_scaler a)) <> len (tc (env a)) ->
  validate pkg a
  = Raise (ValueError "env and fs_scaler do not have congruent dimensions").
Proof.
  intros Hne. unfold validate.
  apply Nat.eqb_neq in Hne. by rewrite Hne.
Qed.

Lemma validate_window_not_set a :
  include (fs_scaler a) = None ->
  validate pkg a
  = Raise (ValueError
             (if Nat.eqb (length (datetimes (fs_scaler a))) (len (tc (env a)))
              then "The daily sampling window has not been set on fs_scaler"
              else "env and fs_scaler do not have congruent dimensions")).
Proof.
  intros Hinc. unfold validate. rewrite Hinc.
  destruct (Nat.eqb _ _); cbn [negb]; [|done].
  rewrite bool_decide_eq_false_2; [done|].
  by intros [x Hx].
Qed.

(** Claim C4. Construction raises the [ValueError] of incongruent
    dimensions whenever the number of timestamps of the scaler differs
    from the length of the first axis of the forcing, and, the
    dimensions being congruent, the [ValueError] of the unset window
    whenever no inclusion rule was set on the scaler; a scaler without
    inclusion rule never gives a model. Both hold whatever the rest of
    the package does: nothing is computed before the checks. *)
Theorem init_congruence_checks a :
  (length (datetimes (fs_scaler a)) <> len (tc (env a)) ->
   SubdailyPModel_init pkg a
   = Raise (ValueError "env and fs_scaler do not have congruent dimensions"))
  /\ (include (fs_scaler a) = None ->
      length (datetimes (fs_scaler a)) = len (tc (env a)) ->
      SubdailyPModel_init pkg a
      = Raise (ValueError
                 "The daily sampling window has not been set on fs_scaler"))
  /\ (include (fs_scaler a) = None ->
      exists msg, SubdailyPModel_init pkg a = Raise (ValueError msg)).
Proof.
  split; [|split].
  - intros Hne. by apply init_validate, validate_incongruent.
  - intros Hinc Heq. apply init_validate.
    rewrite validate_window_not_set by done.
    apply Nat.eqb_eq in Heq. by rewrite Heq.
  - intros Hinc. eexists. apply init_validate.
    by apply validate_window_not_set.
Qed.

Lemma init_Ok a m :
  SubdailyPModel_init pkg a = Ok m ->
  exists ac seeds,
    acclimate pkg a = Ok ac
    /\ check_previous_realised a = Ok seeds
    /\ realise pkg a ac seeds = Ok m.
Proof.
  unfold SubdailyPModel_init. intros Hinit. bind_inv Hinit. eauto.
Qed.

(** Claim C5. In every constructed model the CO2-limited assimilation
    is the subdaily Vcmax times the CO2-limitation multiplier [mc], and
    GPP is the smaller of the light-limited and the CO2-limited
    assimilation times the molar mass of carbon, as arrays and element
    by element. Which stream GPP takes is read off the comparison of the
    two values themselves: the light-limited one when it is missing or
    not above the CO2-limited one, the CO2-limited one otherwise. *)
Theorem init_assimilation_and_gpp a m :
  SubdailyPModel_init pkg a = Ok m ->
  nd_map2 mul (subdaily_vcmax m) (mc (optimal_chi m)) = Ok (subdaily_Ac m)
  /\ (exists smaller,
        nd_map2 minimum (subdaily_Aj m) (subdaily_Ac m) = Ok smaller
        /\ gpp m
           = nd_map (fun x => mul x (k_c_molmass (core_const (sp_env m))))
               smaller)
  /\ (forall t j,
        element (subdaily_Ac m) t j
        = lift2 Ac_of (element (subdaily_vcmax m) t j)
            (element (mc (optimal_chi m)) t j))
  /\ (forall t j,
        element (gpp m) t j
        = lift2 (fun aj ac =>
                   gpp_of aj ac (k_c_molmass (core_const (sp_env m))))
            (element (subdaily_Aj m) t j) (element (subdaily_Ac m) t j))
  /\ (forall t j vc mcv,
        element (subdaily_vcmax m) t j = Some vc ->
        element (mc (optimal_chi m)) t j = Some mcv ->
        element (subdaily_Ac m) t j = Some (mul vc mcv))
  /\ (forall t j aj ac,
        element (subdaily_Aj m) t j = Some aj ->
        element (subdaily_Ac m) t j = Some ac ->
        exists smaller,
          element (gpp m) t j
          = Some (mul smaller (k_c_molmass (core_const (sp_env m))))
          /\ (isnan aj = true -> smaller = aj)
          /\ (isnan aj = false -> leb aj ac = true -> smaller = aj)
          /\ (isnan aj = false -> leb aj ac = false -> smaller = ac)).
Proof.
  intros Hinit.
  destruct (init_Ok a m Hinit) as (ac & [[s0 s1] s2] & _ & _ & Hreal).
  unfold realise in Hreal. bind_inv Hreal. injection Hreal as <-.
  cbn [subdaily_vcmax optimal_chi subdaily_Ac subdaily_Aj gpp sp_env].
  match goal with
  | Hac : nd_map2 mul _ (mc _) = Ok _,
    Hmin : nd_map2 minimum _ _ = Ok _ |- _ =>
      pose proof Hac as Hac'; pose proof Hmin as Hmin'
  end.
  split; [done|]. split; [eauto|]. split; [|split; [|split]].
  - intros t j. by apply element_nd_map2.
  - intros t j. rewrite element_nd_map.
    rewrite (element_nd_map2 _ _ _ _ t j Hmin').
    unfold lift2, gpp_of.
    repeat match goal with
      | |- context [element ?x t j] => destruct (element x t j)
      end; reflexivity.
  - intros t j vc mcv Hvc Hmc.
    rewrite (element_nd_map2 _ _ _ _ t j Hac'), Hvc, Hmc. reflexivity.
  - intros t j aj acv Haj Hacv.
    rewrite element_nd_map, (element_nd_map2 _ _ _ _ t j Hmin'), Haj, Hacv.
    exists (minimum aj acv). split; [reflexivity|].
    unfold minimum.
    destruct (isnan aj) eqn:Hnan, (leb aj acv) eqn:Hle;
      cbn [orb]; repeat split; intros; congruence.
Qed.

(** The light-limited assimilation, element by element. *)
Lemma init_light_limited a m t j :
  SubdailyPModel_init pkg a = Ok m ->
  element (subdaily_Aj m) t j
  = (k ← element (kphio (sp_kphio m)) t j;
     f ← element (fapar a) t j;
     p ← element (ppfd a) t j;
     jm ← element (subdaily_jmax m) t j;
     mjv ← element (mj (optimal_chi m)) t j;
     Some (Aj_of k (mul f p) jm mjv)).
Proof.
  intros Hinit.
  destruct (init_Ok a m Hinit) as (ac & [[s0 s1] s2] & _ & _ & Hreal).
  unfold realise in Hreal. bind_inv Hreal. injection Hreal as <-.
  cbn [subdaily_Aj sp_kphio subdaily_jmax optimal_chi].
  repeat match goal with
    | Hm : nd_map2 _ _ _ = Ok ?c |- context [element ?c t j] =>
        rewrite (element_nd_map2 _ _ _ _ t j Hm)
    | |- context [element (nd_map _ _) t j] => rewrite element_nd_map
    end.
  unfold lift2, Aj_of, J_of.
  repeat match goal with
    | |- context [element ?x t j] => destruct (element x t j)
    end; reflexivity.
Qed.

Lemma init_seed_check a ac e :
  acclimate pkg a = Ok ac ->
  check_previous_realised a = Raise e ->
  SubdailyPModel_init pkg a = Raise e.
Proof.
  intros Hac Hcheck. unfold SubdailyPModel_init.
  rewrite Hac. cbn [mbind result_bind]. by rewrite Hcheck.
Qed.

Lemma init_seed_check_fails a e :
  check_previous_realised a = Raise e ->
  is_ok (SubdailyPModel_init pkg a) = false.
Proof.
  intros Hcheck. unfold SubdailyPModel_init.
  destruct (acclimate pkg a) as [ac|e']; [|done].
  cbn [mbind result_bind]. by rewrite Hcheck.
Qed.

Lemma check_fill_kind a p0 p1 p2 :
  previous_realised a = Some (p0, p1, p2) ->
  fill_kind a <> "previous" ->
  check_previous_realised a
  = Raise (NotImplementedError
             "Using previous_realised is only implemented for fill_kind = 'previous'").
Proof.
  intros Hprev Hfill. unfold check_previous_realised. rewrite Hprev.
  apply String.eqb_neq in Hfill. by rewrite Hfill.
Qed.

Lemma check_shapes a p0 p1 p2 :
  previous_realised a = Some (p0, p1, p2) ->
  fill_kind a = "previous" ->
  0 < len (tc (env a)) ->
  check_previous_realised a
  = if bool_decide (sl_shape p0 = trailing (tc (env a))
                    /\ sl_shape p1 = trailing (tc (env a))
                    /\ sl_shape p2 = trailing (tc (env a)))
    then Ok (Some p0, Some p1, Some p2)
    else Raise (ValueError
                  "`previous_realised` entries have wrong shape in Subdaily PModel").
Proof.
  intros Hprev Hfill Hlen. unfold check_previous_realised.
  rewrite Hprev, Hfill, String.eqb_refl. cbn [negb].
  destruct (nonempty_slices _ Hlen) as (v0 & rest & Hv).
  unfold getitem. rewrite Hv. cbn [lookup list_lookup mbind result_bind sl_shape].
  repeat case_bool_decide; cbn [andb negb]; try done; tauto.
Qed.

(** Claim C6, as amended. With [previous_realised] given, construction
    never gives a model when [fill_kind] is not ['previous'] or when one
    of the three arrays has not the shape of one time slice of the
    forcing. The fill kind is checked first: once steps 1 to 4 have
    succeeded, construction raises [NotImplementedError] whenever
    [fill_kind] is not ['previous'], whatever the shapes, and, [fill_kind]
    being ['previous'], the [ValueError] of the wrong shape unless the
    three arrays have the shape of a time slice, in which case they pass
    the check. *)
Theorem init_previous_realised_checks a p0 p1 p2 :
  previous_realised a = Some (p0, p1, p2) ->
  (fill_kind a <> "previous" ->
   is_ok (SubdailyPModel_init pkg a) = false
   /\ forall ac,
        acclimate pkg a = Ok ac ->
        SubdailyPModel_init pkg a
        = Raise (NotImplementedError
                   "Using previous_realised is only implemented for fill_kind = 'previous'"))
  /\ (fill_kind a = "previous" ->
      0 < len (tc (env a)) ->
      ~ (sl_shape p0 = trailing (tc (env a))
         /\ sl_shape p1 = trailing (tc (env a))
         /\ sl_shape p2 = trailing (tc (env a))) ->
      is_ok (SubdailyPModel_init pkg a) = false
      /\ forall ac,
           acclimate pkg a = Ok ac ->
           SubdailyPModel_init pkg a
           = Raise (ValueError
                      "`previous_realised` entries have wrong shape in Subdaily PModel"))
  /\ (fill_kind a = "previous" ->
      0 < len (tc (env a)) ->
      sl_shape p0 = trailing (tc (env a))
      /\ sl_shape p1 = trailing (tc (env a))
      /\ sl_shape p2 = trailing (tc (env a)) ->
      check_previous_realised a = Ok (Some p0, Some p1, Some p2)).
Proof.
  intros Hprev. split; [|split].
  - intros Hfill.
    pose proof (check_fill_kind a p0 p1 p2 Hprev Hfill) as Hcheck.
    split; [by eapply init_seed_check_fails|].
    intros ac Hac. by apply (init_seed_check a ac).
  - intros Hfill Hlen Hbad.
    pose proof (check_shapes a p0 p1 p2 Hprev Hfill Hlen) as Hcheck.
    rewrite bool_decide_eq_false_2 in Hcheck by done.
    split; [by eapply init_seed_check_fails|].
    intros ac Hac. by apply (init_seed_check a ac).
  - intros Hfill Hlen Hgood.
    rewrite (check_shapes a p0 p1 p2 Hprev Hfill Hlen).
    by rewrite bool_decide_eq_true_2.
Qed.

End SubdailyFacts.

(** ** Assimilation as a function of absorbed light, over the reals *)

Section LightResponse.
Local Open Scope R_scope.

Lemma minimum_real (x y : R) : minimum x y = Rmin x y.
Proof.
  unfold minimum, Rmin. cbn [leb isnan real_arith]. unfold Rleb.
  rewrite orb_false_r. by destruct (Rle_dec x y).
Qed.

(** [u / sqrt (1 + (u / J)^2)] grows with [u]. *)
Lemma saturating_response_increasing (J u1 u2 : R) :
  0 < J -> u1 < u2 ->
  u1 / R_sqrt.sqrt (1 + u1 / J * (u1 / J))
  < u2 / R_sqrt.sqrt (1 + u2 / J * (u2 / J)).
Proof.
  intros HJ Hlt.
  set (a := u1 / J). set (b := u2 / J).
  assert (Hab : a < b).
  { unfold a, b. apply Rmult_lt_compat_r; [|done].
    by apply Rinv_0_lt_compat. }
  assert (Hu1 : u1 = a * J) by (unfold a; field; lra).
  assert (Hu2 : u2 = b * J) by (unfold b; field; lra).
  assert (Ha2 : 0 <= a * a) by nra.
  assert (Hb2 : 0 <= b * b) by nra.
  set (s1 := R_sqrt.sqrt (1 + a * a)).
  set (s2 := R_sqrt.sqrt (1 + b * b)).
  assert (Hs1 : 0 < s1) by (apply sqrt_lt_R0; lra).
  assert (Hs2 : 0 < s2) by (apply sqrt_lt_R0; lra).
  assert (Hq1 : s1 * s1 = 1 + a * a) by (apply sqrt_sqrt; lra).
  assert (Hq2 : s2 * s2 = 1 + b * b) by (apply sqrt_sqrt; lra).
  assert (Hcross : a * s2 < b * s1).
  { destruct (Rle_dec 0 a) as [Hpos|Hneg].
    - apply Rsqr_incrst_0; [|nra|nra].
      unfold Rsqr. nra.
    - apply Rnot_le_lt in Hneg.
      destruct (Rle_dec 0 b) as [Hbpos|Hbneg]; [nra|].
      apply Rnot_le_lt in Hbneg.
      apply Ropp_lt_cancel.
      apply Rsqr_incrst_0; [|nra|nra].
      unfold Rsqr. nra. }
  rewrite Hu1, Hu2.
  apply Rmult_lt_reg_r with (r := s1 * s2); [nra|].
  replace (a * J / s1 * (s1 * s2)) with (J * (a * s2)) by (field; lra).
  replace (b * J / s2 * (s1 * s2)) with (J * (b * s1)) by (field; lra).
  by apply Rmult_lt_compat_l.
Qed.

Lemma J_of_increasing (kphio_v jmax_v iabs1 iabs2 : R) :
  0 < kphio_v -> 0 < jmax_v -> iabs1 < iabs2 ->
  J_of kphio_v iabs1 jmax_v < J_of kphio_v iabs2 jmax_v.
Proof.
  intros Hk Hj Hlt. unfold J_of.
  cbn [add mul div sqrt one four real_arith].
  apply saturating_response_increasing; [done|nra].
Qed.

(** Claim C8, as amended. In exact real arithmetic, with a positive
    quantum yield, subdaily Jmax and light-limitation multiplier, the
    light-limited assimilation is strictly increasing in the absorbed
    light, and so, the molar mass of carbon being non-negative, GPP does
    not decrease when the absorbed light increases, whatever the
    CO2-limited assimilation. *)
Theorem gpp_monotone_in_absorbed_light
    (kphio_v jmax_v vcmax_v mc_v mj_v k_c iabs1 iabs2 : R) :
  0 < kphio_v -> 0 < jmax_v -> 0 < mj_v -> 0 <= k_c ->
  iabs1 < iabs2 ->
  Aj_of kphio_v iabs1 jmax_v mj_v < Aj_of kphio_v iabs2 jmax_v mj_v
  /\ gpp_of (Aj_of kphio_v iabs1 jmax_v mj_v) (Ac_of vcmax_v mc_v) k_c
     <= gpp_of (Aj_of kphio_v iabs2 jmax_v mj_v) (Ac_of vcmax_v mc_v) k_c.
Proof.
  intros Hk Hj Hmj Hkc Hlt.
  pose proof (J_of_increasing kphio_v jmax_v iabs1 iabs2 Hk Hj Hlt) as HJ.
  assert (HAj : Aj_of kphio_v iabs1 jmax_v mj_v
                < Aj_of kphio_v iabs2 jmax_v mj_v).
  { unfold Aj_of. cbn [mul div four real_arith]. nra. }
  split; [done|].
  unfold gpp_of. rewrite !minimum_real. cbn [mul real_arith].
  apply Rmult_le_compat_r; [done|].
  apply Rle_min_compat_r. lra.
Qed.

Lemma gpp_monotone_in_absorbed_light_witness :
  Aj_of (1 / 8) 100 50 (1 / 2) < Aj_of (1 / 8) 200 50 (1 / 2)
  /\ gpp_of (Aj_of (1 / 8) 100 50 (1 / 2)) (Ac_of 40 (1 / 4)) 12
     <= gpp_of (Aj_of (1 / 8) 200 50 (1 / 2)) (Ac_of 40 (1 / 4)) 12.
Proof.
  apply (gpp_monotone_in_absorbed_light (1 / 8) 50 40 (1 / 4) (1 / 2) 12
           100 200); lra.
Defined.
End LightResponse.

(** In binary64 the light response is not monotone: from an absorbed
    light of 1000 to the next representable value the light-limited
    assimilation, and GPP with it, lose one unit in the last place. *)
Lemma light_response_not_monotone_in_binary64 :
  ~ (forall kphio_v jmax_v vcmax_v mc_v mj_v k_c iabs1 iabs2 : float,
        PrimFloat.ltb 0 kphio_v = true ->
        PrimFloat.ltb 0 jmax_v = true ->
        PrimFloat.ltb 0 vcmax_v = true ->
        PrimFloat.ltb 0 mc_v = true ->
        PrimFloat.ltb 0 mj_v = true ->
        PrimFloat.ltb 0 k_c = true ->
        PrimFloat.ltb iabs1 iabs2 = true ->
        PrimFloat.ltb (Aj_of kphio_v iabs1 jmax_v mj_v)
          (Aj_of kphio_v iabs2 jmax_v mj_v) = true
        /\ PrimFloat.leb
             (gpp_of (Aj_of kphio_v iabs1 jmax_v mj_v) (Ac_of vcmax_v mc_v) k_c)
             (gpp_of (Aj_of kphio_v iabs2 jmax_v mj_v) (Ac_of vcmax_v mc_v) k_c)
           = true).
Proof.
  intros Hclaim.
  destruct (Hclaim 0.125 100 50 0.5 0.5 12 1000 0x1.f400000000001p+9)%float
    as [Hstrict _]; try reflexivity.
  vm_compute in Hstrict. discriminate Hstrict.
Qed.

(** ** The constructor on the example package *)

Lemma init_congruence_checks_witness :
  SubdailyPModel_init example_pkg
    (example_args 9 10 true "previous" None None)
  = Raise (ValueError "env and fs_scaler do not have congruent dimensions")
  /\ SubdailyPModel_init example_pkg
       (example_args 10 10 false "previous" None None)
     = Raise (ValueError
                "The daily sampling window has not been set on fs_scaler").
Proof.
  split.
  - apply (proj1 (init_congruence_checks example_pkg
                    (example_args 9 10 true "previous" None None))).
    vm_compute. lia.
  - apply (proj1 (proj2 (init_congruence_checks example_pkg
                           (example_args 10 10 false "previous" None None))));
      reflexivity.
Defined.

(** On the second package, with photon fluxes 10, 1000 and 1000: the
    CO2-limited assimilation is 50 * 0.0625 = 3.125 throughout; under low
    light the light-limited stream 0.15620119475126915 is the smaller and
    GPP is 1.8744143370152297, under high light the light-limited stream
    is 5.8029793180328708 and GPP is 3.125 * 12 = 37.5. *)
Lemma init_assimilation_and_gpp_witness :
  exists m,
    SubdailyPModel_init example_pkg_low_mc
      (example_args_light [10; 1000; 1000]%float) = Ok m
    /\ nd_map2 mul (subdaily_vcmax m) (mc (optimal_chi m)) = Ok (subdaily_Ac m)
    /\ element (subdaily_vcmax m) 2 0 = Some 50%float
    /\ element (mc (optimal_chi m)) 2 0 = Some 0.0625%float
    /\ element (subdaily_Ac m) 2 0 = Some 3.125%float
    /\ element (subdaily_Aj m) 0 0 = Some 0x1.3fe669786c31p-3%float
    /\ element (gpp m) 0 0 = Some 0x1.dfd99e34a2498p+0%float
    /\ element (subdaily_Aj m) 2 0 = Some 0x1.7364035d94323p+2%float
    /\ element (gpp m) 2 0 = Some 37.5%float.
Proof.
  destruct (SubdailyPModel_init example_pkg_low_mc
              (example_args_light [10; 1000; 1000]%float))
    as [m|e] eqn:Hinit.
  - exists m. split; [reflexivity|].
    destruct (init_assimilation_and_gpp example_pkg_low_mc _ m Hinit)
      as (Harr & _ & _ & _ & Hac & Hgpp).
    split; [exact Harr|].
    assert (Hvc : element (subdaily_vcmax m) 2 0 = Some 50%float).
    { vm_compute in Hinit. injection Hinit as <-. reflexivity. }
    assert (Hmc : element (mc (optimal_chi m)) 2 0 = Some 0.0625%float).
    { vm_compute in Hinit. injection Hinit as <-. reflexivity. }
    assert (Haj0 : element (subdaily_Aj m) 0 0
                   = Some 0x1.3fe669786c31p-3%float).
    { vm_compute in Hinit. injection Hinit as <-. reflexivity. }
    assert (Haj2 : element (subdaily_Aj m) 2 0
                   = Some 0x1.7364035d94323p+2%float).
    { vm_compute in Hinit. injection Hinit as <-. reflexivity. }
    assert (Hk : k_c_molmass (core_const (sp_env m)) = 12%float).
    { vm_compute in Hinit. injection Hinit as <-. reflexivity. }
    pose proof (Hac 2 0 _ _ Hvc Hmc) as Hac2.
    assert (Hac0 : element (subdaily_Ac m) 0 0 = Some 3.125%float).
    { vm_compute in Hinit. injection Hinit as <-. reflexivity. }
    repeat split; try assumption.
    + destruct (Hgpp 0 0 _ _ Haj0 Hac0) as (smaller & Hg & _ & Hsm & _).
      rewrite Hg, Hk, (Hsm eq_refl eq_refl). reflexivity.
    + destruct (Hgpp 2 0 _ _ Haj2 Hac2) as (smaller & Hg & _ & _ & Hsm).
      rewrite Hg, Hk, (Hsm eq_refl eq_refl). reflexivity.
  - vm_compute in Hinit. discriminate Hinit.
Defined.

Lemma init_previous_realised_checks_witness :
  SubdailyPModel_init example_pkg
    (example_args 3 3 true "linear"
       (Some (scalar 1%float, scalar 1%float, scalar 1%float)) None)
  = Raise (NotImplementedError
             "Using previous_realised is only implemented for fill_kind = 'previous'")
  /\ SubdailyPModel_init example_pkg
       (example_args 3 3 true "previous"
          (Some (scalar 1%float, NDSlice [2] [1; 1]%float, scalar 1%float))
          None)
     = Raise (ValueError
                "`previous_realised` entries have wrong shape in Subdaily PModel")
  /\ check_previous_realised
       (example_args 3 3 true "previous"
          (Some (scalar 1%float, scalar 2%float, scalar 3%float)) None)
     = Ok (Some (scalar 1%float), Some (scalar 2%float), Some (scalar 3%float)).
Proof.
  split; [|split].
  - destruct (init_previous_realised_checks example_pkg
                (example_args 3 3 true "linear"
                   (Some (scalar 1%float, scalar 1%float, scalar 1%float))
                   None)
                (scalar 1%float) (scalar 1%float) (scalar 1%float) eq_refl)
      as (Hfill & _ & _).
    destruct Hfill as [_ Hraise]; [discriminate|].
    destruct (acclimate example_pkg
                (example_args 3 3 true "linear"
                   (Some (scalar 1%float, scalar 1%float, scalar 1%float))
                   None)) as [ac|e] eqn:Hac.
    + exact (Hraise ac eq_refl).
    + vm_compute in Hac. discriminate Hac.
  - destruct (init_previous_realised_checks example_pkg
                (example_args 3 3 true "previous"
                   (Some (scalar 1%float, NDSlice [2] [1; 1]%float,
                          scalar 1%float))
                   None)
                (scalar 1%float) (NDSlice [2] [1; 1]%float) (scalar 1%float)
                eq_refl)
      as (_ & Hshape & _).
    destruct Hshape as [_ Hraise].
    + reflexivity.
    + vm_compute. lia.
    + intros (_ & Hbad & _). discriminate Hbad.
    + destruct (acclimate example_pkg
                  (example_args 3 3 true "previous"
                     (Some (scalar 1%float, NDSlice [2] [1; 1]%float,
                            scalar 1%float))
                     None)) as [ac|e] eqn:Hac.
      * exact (Hraise ac eq_refl).
      * vm_compute in Hac. discriminate Hac.
  - destruct (init_previous_realised_checks example_pkg
                (example_args 3 3 true "previous"
                   (Some (scalar 1%float, scalar 2%float, scalar 3%float))
                   None)
                (scalar 1%float) (scalar 2%float) (scalar 3%float) eq_refl)
      as (_ & _ & Hpass).
    apply Hpass; [reflexivity|vm_compute; lia|repeat split].
Defined.


(** A seed of the wrong shape passed with another fill kind raises
    [NotImplementedError], not the [ValueError] of the wrong shape. *)
Lemma previous_realised_fill_kind_checked_first :
  let a := example_args 3 3 true "linear"
             (Some (scalar 1%float, NDSlice [2] [1; 1]%float, scalar 1%float))
             None in
  sl_shape (NDSlice [2] [1; 1]%float) <> trailing (tc (env a))
  /\ SubdailyPModel_init example_pkg a
     = Raise (NotImplementedError
                "Using previous_realised is only implemented for fill_kind = 'previous'")
  /\ forall msg, SubdailyPModel_init example_pkg a <> Raise (ValueError msg).
Proof.
  assert (Hrun :
    SubdailyPModel_init example_pkg
      (example_args 3 3 true "linear"
         (Some (scalar 1%float, NDSlice [2] [1; 1]%float, scalar 1%float))
         None)
    = Raise (NotImplementedError
               "Using previous_realised is only implemented for fill_kind = 'previous'"))
    by (vm_compute; reflexivity).
  cbv zeta. split; [discriminate|]. split; [exact Hrun|].
  intros msg. rewrite Hrun. discriminate.
Qed.

(** * Further properties *)

(** ** memory_effect: chunks, the fresh array, leading and trailing gaps *)

Section MemoryEffectMore.
Context {T : Type} {A : Arith T}.
Implicit Types (values : ndarray T) (alpha uninit : T).

Lemma recursion_app (step : T -> T -> T) r0 (xs ys : list (list T)) :
  recursion step r0 (xs ++ ys)
  = recursion step r0 xs
      ++ recursion step (default r0 (last (recursion step r0 xs))) ys.
Proof.
  revert r0. induction xs as [|x xs IH]; intros r0; [done|].
  cbn [app recursion]. rewrite IH. cbn [app]. f_equal. f_equal. f_equal.
  rewrite last_cons.
  by destruct (last (recursion step (zip_with step r0 x) xs)).
Qed.

Lemma any_isnan_app tr (xs ys : list (list T)) :
  any_isnan (NDArray tr (xs ++ ys))
  = any_isnan (NDArray tr xs) || any_isnan (NDArray tr ys).
Proof. unfold any_isnan. cbn [slices]. apply existsb_app. Qed.

(** Property X1. A series without missing values can be processed in two
    chunks: the
    second chunk seeded with the last realised slice of the first gives
    the slices the whole series gives. *)
Theorem memory_effect_in_chunks uninit tr (first second : list (list T))
    previous_values alpha allow_holdover :
  0 < length first ->
  0 < length second ->
  any_isnan (NDArray tr (first ++ second)) = false ->
  (forall previous, previous_values = Some previous ->
                    sl_shape previous = tr) ->
  exists R R1 R2 last_realised,
    memory_effect uninit (NDArray tr (first ++ second)) previous_values alpha
      allow_holdover = Ok R
    /\ memory_effect uninit (NDArray tr first) previous_values alpha
         allow_holdover = Ok R1
    /\ last (slices R1) = Some last_realised
    /\ memory_effect uninit (NDArray tr second)
         (Some (NDSlice tr last_realised)) alpha allow_holdover = Ok R2
    /\ slices R = slices R1 ++ slices R2.
Proof.
  intros Hfirst Hsecond Hnan Hseed.
  rewrite any_isnan_app in Hnan. apply orb_false_elim in Hnan as [Hn1 Hn2].
  destruct first as [|v0 rest1]; [simpl in Hfirst; lia|].
  destruct second as [|w0 rest2]; [simpl in Hsecond; lia|].
  set (r0 := first_of alpha previous_values v0).
  set (R1 := r0 :: recursion (blend alpha) r0 rest1).
  set (lastr := default r0 (last (recursion (blend alpha) r0 rest1))).
  exists (NDArray tr (R1 ++ recursion (blend alpha) lastr (w0 :: rest2))),
    (NDArray tr R1),
    (NDArray tr (recursion (blend alpha) lastr (w0 :: rest2))), lastr.
  split; [|split; [|split; [|split]]].
  - rewrite (memory_effect_closed _ _ _ _ _ v0 (rest1 ++ w0 :: rest2));
      [|done| |done].
    2:{ rewrite any_isnan_app, Hn1, Hn2. done. }
    cbn [trailing]. unfold step_of.
    rewrite any_isnan_app, Hn1, Hn2. cbn [orb].
    by rewrite recursion_app.
  - rewrite (memory_effect_closed _ _ _ _ _ v0 rest1); [|done| |done].
    2:{ by rewrite Hn1. }
    unfold step_of. by rewrite Hn1.
  - cbn [slices]. unfold R1, lastr. rewrite last_cons.
    by destruct (last (recursion (blend alpha) r0 rest1)).
  - rewrite (memory_effect_closed _ _ _ _ _ w0 rest2); [|done| |].
    2:{ by rewrite Hn2. }
    2:{ by intros ? [= <-]. }
    unfold step_of. by rewrite Hn2.
  - done.
Qed.

(** Property X2. The result never depends on what the fresh output array
    held. *)
Theorem memory_effect_ignores_fresh_array uninit uninit' values
    previous_values alpha allow_holdover :
  memory_effect uninit values previous_values alpha allow_holdover
  = memory_effect uninit' values previous_values alpha allow_holdover.
Proof.
  destruct (slices values) as [|v0 optimal] eqn:Hv.
  { by rewrite !memory_effect_empty. }
  destruct (any_isnan values && negb allow_holdover) eqn:Hnan.
  { unfold memory_effect. by rewrite Hnan. }
  destruct previous_values as [previous|].
  - destruct (decide (sl_shape previous = trailing values)) as [Hs|Hs].
    + rewrite !(memory_effect_closed _ _ _ _ _ v0 optimal); try done;
        by intros ? [= <-].
    + unfold memory_effect. rewrite Hnan.
      unfold getitem, slice_map2. rewrite Hv.
      cbn [lookup list_lookup mbind result_bind sl_shape].
      by rewrite decide_False.
  - by rewrite !(memory_effect_closed _ _ _ _ _ v0 optimal).
Qed.
End MemoryEffectMore.

Section MemoryEffectGaps.
Context {T : Type} {A : Arith T}.
Implicit Types (values : ndarray T) (alpha uninit : T).

Lemma wf_element_Some values t j v :
  wf_ndarray values -> element values t j = Some v ->
  j < numel (trailing values).
Proof.
  unfold wf_ndarray, element. intros Hwf Hel.
  destruct (slices values !! t) as [r|] eqn:Hr; [|done].
  cbn [mbind option_bind] in Hel.
  rewrite Forall_lookup in Hwf. rewrite <- (Hwf t r Hr).
  by eapply lookup_lt_Some.
Qed.

Lemma wf_element_is_Some values t j :
  wf_ndarray values -> t < len values -> j < numel (trailing values) ->
  is_Some (element values t j).
Proof.
  unfold wf_ndarray, element, len. intros Hwf Ht Hj.
  destruct (lookup_lt_is_Some_2 (slices values) t Ht) as [r Hr].
  rewrite Hr. cbn [mbind option_bind].
  apply lookup_lt_is_Some. rewrite Forall_lookup in Hwf.
  by rewrite (Hwf t r Hr).
Qed.

(** Property X3. With holdover, leading missing values are kept and the first
    observed optimal value is taken as it is: as long as every earlier
    optimal value of an element is missing, its realised value is its
    optimal value. *)
Theorem memory_effect_leading_gap uninit values alpha k j :
  0 < len values ->
  wf_ndarray values ->
  any_isnan values = true ->
  (forall t v, t < k -> element values t j = Some v -> isnan v = true) ->
  exists R,
    memory_effect uninit values None alpha true = Ok R
    /\ forall t, t <= k -> element R t j = element values t j.
Proof.
  intros Hlen Hwf Hnan Hgap.
  destruct (memory_effect_elements uninit values None alpha true Hlen)
    as (R & Hrun & _ & Hn & H0 & Hrec).
  { by rewrite andb_false_r. }
  { done. }
  exists R. split; [done|].
  induction t as [|t IH]; intros Ht; [by rewrite H0|].
  rewrite (Hrec (S t) j) by lia. replace (S t - 1) with t by lia.
  rewrite IH by lia. unfold step_of. rewrite Hnan.
  destruct (element values (S t) j) as [c|] eqn:Hc.
  - assert (Hj : j < numel (trailing values)) by by eapply wf_element_Some.
    assert (Hlt : S t < len values).
    { unfold element in Hc.
      destruct (slices values !! S t) as [r|] eqn:Hr; [|done].
      by eapply lookup_lt_Some. }
    destruct (wf_element_is_Some values t j Hwf ltac:(lia) Hj) as [p Hp].
    rewrite Hp. cbn [lift2 mbind option_bind]. unfold holdover.
    by rewrite (Hgap t p ltac:(lia) Hp).
  - unfold lift2. by destruct (element values t j).
Qed.

(** Property X4. With holdover, a realised value is held over a run of missing
    optimal values: it is the realised value until the next observed
    optimal value. *)
Theorem memory_effect_holds_over uninit values previous_values alpha R
    first_t last_t j r :
  wf_ndarray values ->
  any_isnan values = true ->
  memory_effect uninit values previous_values alpha true = Ok R ->
  element R first_t j = Some r ->
  isnan r = false ->
  (forall t v, first_t < t <= last_t ->
               element values t j = Some v -> isnan v = true) ->
  forall t, first_t <= t <= last_t -> t < len values ->
            element R t j = Some r.
Proof.
  intros Hwf Hnan Hrun Hfirst Hr Hgap.
  destruct (slices values) as [|v0 optimal] eqn:Hv.
  { by rewrite memory_effect_empty in Hrun. }
  assert (Hlen : 0 < len values) by (unfold len; rewrite Hv; simpl; lia).
  assert (Hrec : forall t, 0 < t ->
            element R t j
            = lift2 (holdover alpha) (element R (t - 1) j)
                (element values t j)).
  { destruct previous_values as [previous|].
    - destruct (decide (sl_shape previous = trailing values)) as [Hs|Hs].
      + destruct (memory_effect_elements uninit values (Some previous) alpha
                    true Hlen) as (R' & Hrun' & _ & _ & _ & Hrec').
        { by rewrite andb_false_r. }
        { by intros ? [= <-]. }
        rewrite Hrun in Hrun'. injection Hrun' as <-.
        intros t Ht. rewrite (Hrec' t j Ht). unfold step_of. by rewrite Hnan.
      + unfold memory_effect in Hrun. rewrite andb_false_r in Hrun.
        unfold getitem, slice_map2 in Hrun. rewrite Hv in Hrun.
        cbn [lookup list_lookup mbind result_bind sl_shape] in Hrun.
        by rewrite decide_False in Hrun.
    - destruct (memory_effect_elements uninit values None alpha true Hlen)
        as (R' & Hrun' & _ & _ & _ & Hrec').
      { by rewrite andb_false_r. }
      { done. }
      rewrite Hrun in Hrun'. injection Hrun' as <-.
      intros t Ht. rewrite (Hrec' t j Ht). unfold step_of. by rewrite Hnan. }
  assert (Hj : j < numel (trailing values)).
  { destruct (decide (first_t = 0)) as [->|Hpos].
    - destruct (nonempty_slices values Hlen) as (w0 & rest & Hw).
      destruct previous_values as [previous|].
      + destruct (decide (sl_shape previous = trailing values)) as [Hs|Hs].
        * destruct (memory_effect_elements uninit values (Some previous)
                      alpha true Hlen) as (R' & Hrun' & _ & _ & H0 & _).
          { by rewrite andb_false_r. }
          { by intros ? [= <-]. }
          rewrite Hrun in Hrun'. injection Hrun' as <-.
          rewrite H0 in Hfirst. unfold lift2 in Hfirst.
          destruct (sl_data previous !! j); [|done].
          cbn [mbind option_bind] in Hfirst.
          destruct (element values 0 j) as [c|] eqn:Hc; [|done].
          by eapply wf_element_Some.
        * unfold memory_effect in Hrun. rewrite andb_false_r in Hrun.
          unfold getitem, slice_map2 in Hrun. rewrite Hv in Hrun.
          cbn [lookup list_lookup mbind result_bind sl_shape] in Hrun.
          by rewrite decide_False in Hrun.
      + destruct (memory_effect_elements uninit values None alpha true Hlen)
          as (R' & Hrun' & _ & _ & H0 & _).
        { by rewrite andb_false_r. }
        { done. }
        rewrite Hrun in Hrun'. injection Hrun' as <-.
        rewrite H0 in Hfirst. by eapply wf_element_Some.
    - rewrite (Hrec first_t ltac:(lia)) in Hfirst. unfold lift2 in Hfirst.
      destruct (element R (first_t - 1) j); [|done].
      cbn [mbind option_bind] in Hfirst.
      destruct (element values first_t j) as [c|] eqn:Hc; [|done].
      by eapply wf_element_Some. }
  induction t as [|t IH]; intros Ht Hlt.
  - by replace first_t with 0 in Hfirst by lia.
  - destruct (decide (first_t = S t)) as [<-|Hne]; [done|].
    rewrite (Hrec (S t)) by lia. replace (S t - 1) with t by lia.
    rewrite IH by lia.
    destruct (wf_element_is_Some values (S t) j Hwf Hlt Hj) as [v Hvv].
    rewrite Hvv. cbn [lift2 mbind option_bind]. unfold holdover.
    rewrite Hr. by rewrite (Hgap (S t) v ltac:(lia) Hvv).
Qed.
End MemoryEffectGaps.

(** ** memory_effect in exact arithmetic *)

Section MemoryEffectReal.
Implicit Types (values : ndarray R) (alpha uninit : R).

Lemma any_isnan_real values : any_isnan values = false.
Proof.
  unfold any_isnan. induction (slices values) as [|r l IH]; [done|].
  cbn [existsb]. rewrite IH, orb_false_r.
  clear. induction r as [|x r IH]; [done|]. by cbn [existsb isnan real_arith].
Qed.

Lemma zip_with_second (f : R -> R -> R) (l k : list R) :
  (forall x y, f x y = y) -> length l = length k -> zip_with f l k = k.
Proof.
  intros Hf. revert k. induction l as [|x l IH]; intros [|y k] Hlen;
    try done.
  cbn [zip_with]. rewrite Hf, IH; [done|]. simpl in Hlen. lia.
Qed.

Lemma zip_with_first (f : R -> R -> R) (l k : list R) :
  (forall x y, f x y = x) -> length l = length k -> zip_with f l k = l.
Proof.
  intros Hf. revert k. induction l as [|x l IH]; intros [|y k] Hlen;
    try done.
  cbn [zip_with]. rewrite Hf, IH; [done|]. simpl in Hlen. lia.
Qed.

Lemma recursion_second (f : R -> R -> R) n r0 (optimal : list (list R)) :
  (forall x y, f x y = y) -> length r0 = n ->
  Forall (fun r => length r = n) optimal ->
  recursion f r0 optimal = optimal.
Proof.
  intros Hf Hr0 Hall. revert r0 Hr0.
  induction Hall as [|cur optimal Hcur Hall IH]; intros r0 Hr0; [done|].
  cbn [recursion]. rewrite (zip_with_second f r0 cur Hf) by lia.
  by rewrite IH.
Qed.

Lemma recursion_first (f : R -> R -> R) n r0 (optimal : list (list R)) :
  (forall x y, f x y = x) -> length r0 = n ->
  Forall (fun r => length r = n) optimal ->
  recursion f r0 optimal = replicate (length optimal) r0.
Proof.
  intros Hf Hr0 Hall. revert r0 Hr0.
  induction Hall as [|cur optimal Hcur Hall IH]; intros r0 Hr0; [done|].
  cbn [recursion length replicate].
  rewrite (zip_with_first f r0 cur Hf) by lia.
  by rewrite IH.
Qed.

Lemma blend_one (p c : R) : blend 1%R p c = c.
Proof. unfold blend. cbn [add mul sub one real_arith]. lra. Qed.

Lemma blend_zero (p c : R) : blend 0%R p c = p.
Proof. unfold blend. cbn [add mul sub one real_arith]. lra. Qed.

(** Property X5. With [alpha = 1] there is no memory: the realised values are
    the
    optimal values, with or without a seed. *)
Theorem memory_effect_alpha_one uninit values previous_values
    allow_holdover :
  0 < len values ->
  wf_ndarray values ->
  (forall previous, previous_values = Some previous ->
                    sl_shape previous = trailing values
                    /\ wf_ndslice previous) ->
  memory_effect uninit values previous_values 1%R allow_holdover = Ok values.
Proof.
  intros Hlen Hwf Hseed.
  destruct (nonempty_slices values Hlen) as (v0 & optimal & Hv).
  rewrite (memory_effect_closed _ _ _ _ _ v0 optimal); [|done| |].
  2:{ by rewrite any_isnan_real. }
  2:{ intros ? ?. by apply Hseed. }
  unfold wf_ndarray in Hwf. rewrite Hv in Hwf.
  apply Forall_cons in Hwf as [Hv0 Hopt].
  assert (Hfirst : first_of 1%R previous_values v0 = v0).
  { destruct previous_values as [previous|]; [|done]. cbn [first_of].
    destruct (Hseed previous eq_refl) as [Hs Hw]. unfold wf_ndslice in Hw.
    apply zip_with_second; [apply blend_one|]. by rewrite Hw, Hs. }
  rewrite Hfirst. unfold step_of. rewrite any_isnan_real.
  rewrite (recursion_second _ _ _ _ blend_one Hv0 Hopt).
  destruct values as [tr rows]. cbn [trailing slices] in *. by rewrite Hv.
Qed.

(** Property X6. With [alpha = 0] there is no acclimation: every realised
    slice is
    the first one, which is the first optimal slice or, when given, the
    seed. *)
Theorem memory_effect_alpha_zero uninit values previous_values
    allow_holdover :
  0 < len values ->
  wf_ndarray values ->
  (forall previous, previous_values = Some previous ->
                    sl_shape previous = trailing values
                    /\ wf_ndslice previous) ->
  exists first_slice,
    (match previous_values with
     | None => slices values !! 0 = Some first_slice
     | Some previous => sl_data previous = first_slice
     end)
    /\ memory_effect uninit values previous_values 0%R allow_holdover
       = Ok (NDArray (trailing values)
               (replicate (len values) first_slice)).
Proof.
  intros Hlen Hwf Hseed.
  destruct (nonempty_slices values Hlen) as (v0 & optimal & Hv).
  unfold wf_ndarray in Hwf. rewrite Hv in Hwf.
  apply Forall_cons in Hwf as [Hv0 Hopt].
  exists (first_of 0%R previous_values v0).
  assert (Hfirst : first_of 0%R previous_values v0
                   = match previous_values with
                     | None => v0
                     | Some previous => sl_data previous
                     end).
  { destruct previous_values as [previous|]; [|done]. cbn [first_of].
    destruct (Hseed previous eq_refl) as [Hs Hw]. unfold wf_ndslice in Hw.
    apply zip_with_first; [apply blend_zero|]. by rewrite Hw, Hs. }
  split.
  - rewrite Hfirst. destruct previous_values; [done|]. by rewrite Hv.
  - rewrite (memory_effect_closed _ _ _ _ _ v0 optimal); [|done| |].
    2:{ by rewrite any_isnan_real. }
    2:{ intros ? ?. by apply Hseed. }
    unfold step_of. rewrite any_isnan_real.
    rewrite (recursion_first _ (numel (trailing values)) _ _ blend_zero);
      [|rewrite Hfirst|done].
    + unfold len. rewrite Hv. done.
    + destruct previous_values as [previous|]; [|done].
      destruct (Hseed previous eq_refl) as [Hs Hw]. unfold wf_ndslice in Hw.
      by rewrite Hw, Hs.
Qed.

Lemma blend_between (alpha lo hi p c : R) :
  (0 <= alpha <= 1)%R -> (lo <= p <= hi)%R -> (lo <= c <= hi)%R ->
  (lo <= blend alpha p c <= hi)%R.
Proof.
  intros Ha Hp Hc. unfold blend. cbn [add mul sub one real_arith].
  split; nra.
Qed.

(** Property X7. For a weight between 0 and 1 the realised values stay within
    the
    bounds of the optimal values and of the seed. *)
Theorem memory_effect_bounded uninit values previous_values alpha
    allow_holdover (lo hi : R) (realised : ndarray R) :
  (0 <= alpha <= 1)%R ->
  (forall t j v, element values t j = Some v -> (lo <= v <= hi)%R) ->
  (forall previous j v, previous_values = Some previous ->
                        sl_data previous !! j = Some v ->
                        (lo <= v <= hi)%R) ->
  memory_effect uninit values previous_values alpha allow_holdover = Ok realised ->
  forall t j v, element realised t j = Some v -> (lo <= v <= hi)%R.
Proof.
  intros Ha Hvalues Hprev Hrun.
  destruct (slices values) as [|v0 optimal] eqn:Hv.
  { by rewrite memory_effect_empty in Hrun. }
  assert (Hlen : 0 < len values) by (unfold len; rewrite Hv; simpl; lia).
  assert (Hshape : forall previous, previous_values = Some previous ->
                                    sl_shape previous = trailing values).
  { intros previous ->.
    destruct (decide (sl_shape previous = trailing values)) as [Hs|Hs];
      [done|].
    unfold memory_effect in Hrun. rewrite any_isnan_real in Hrun.
    cbn [andb] in Hrun.
    unfold getitem, slice_map2 in Hrun. rewrite Hv in Hrun.
    cbn [lookup list_lookup mbind result_bind sl_shape] in Hrun.
    by rewrite decide_False in Hrun. }
  destruct (memory_effect_elements uninit values previous_values alpha
              allow_holdover Hlen) as (R' & Hrun' & _ & _ & H0 & Hrec).
  { by rewrite any_isnan_real. }
  { done. }
  rewrite Hrun in Hrun'. injection Hrun' as <-.
  induction t as [|t IH]; intros j v Hel.
  - rewrite H0 in Hel. destruct previous_values as [previous|].
    + unfold lift2 in Hel.
      destruct (sl_data previous !! j) as [s|] eqn:Hs; [|done].
      destruct (element values 0 j) as [c|] eqn:Hc; [|done].
      injection Hel as <-. apply blend_between; eauto.
    + eauto.
  - rewrite (Hrec (S t) j) in Hel by lia.
    replace (S t - 1) with t in Hel by lia. unfold lift2 in Hel.
    destruct (element realised t j) as [p|] eqn:Hp; [|done].
    destruct (element values (S t) j) as [c|] eqn:Hc; [|done].
    injection Hel as <-. unfold step_of. rewrite any_isnan_real.
    apply blend_between; eauto.
Qed.
End MemoryEffectReal.

(** ** The constructor: method names, the daily environment, fill kind *)

Section SubdailyMore.
Context {T : Type} {A : Arith T} {Coef BoundsChecker : Type}.
Variable pkg : @Package T Coef BoundsChecker.
Implicit Types (a : @Args T Coef BoundsChecker).

Lemma not_in_true {V : Type} (key : string) (registry : gmap string V) :
  not_in key registry = true <-> registry !! key = None.
Proof. unfold not_in. by destruct (registry !! key). Qed.

(** Property X8. Once the dimensions are congruent and the window is set, a
    method
    name missing from its registry raises a [ValueError] that names it:
    optimal chi first, then kphio, then Arrhenius. *)
Theorem init_unknown_method a :
  length (datetimes (fs_scaler a)) = len (tc (env a)) ->
  is_Some (include (fs_scaler a)) ->
  (OPTIMAL_CHI_CLASS_REGISTRY pkg !! method_optchi a = None ->
   SubdailyPModel_init pkg a
   = Raise (ValueError
              ("Unknown optimal chi estimation method: " +:+ method_optchi a)))
  /\ (is_Some (OPTIMAL_CHI_CLASS_REGISTRY pkg !! method_optchi a) ->
      QUANTUM_YIELD_CLASS_REGISTRY pkg !! method_kphio a = None ->
      SubdailyPModel_init pkg a
      = Raise (ValueError
                 ("Unknown kphio calculation method: " +:+ method_kphio a)))
  /\ (is_Some (OPTIMAL_CHI_CLASS_REGISTRY pkg !! method_optchi a) ->
      is_Some (QUANTUM_YIELD_CLASS_REGISTRY pkg !! method_kphio a) ->
      ARRHENIUS_METHOD_REGISTRY pkg !! method_arrhenius a = None ->
      SubdailyPModel_init pkg a
      = Raise (ValueError
                 ("Unknown Arrhenius scaling method: "
                    +:+ method_arrhenius a))).
Proof.
  intros Hcongruent Hwindow.
  apply Nat.eqb_eq in Hcongruent.
  assert (Hstart : forall e,
    (if not_in (method_optchi a) (OPTIMAL_CHI_CLASS_REGISTRY pkg)
     then Raise (ValueError
                   ("Unknown optimal chi estimation method: "
                      +:+ method_optchi a))
     else if not_in (method_kphio a) (QUANTUM_YIELD_CLASS_REGISTRY pkg)
     then Raise (ValueError
                   ("Unknown kphio calculation method: " +:+ method_kphio a))
     else if not_in (method_arrhenius a) (ARRHENIUS_METHOD_REGISTRY pkg)
     then Raise (ValueError
                   ("Unknown Arrhenius scaling method: "
                      +:+ method_arrhenius a))
     else Ok ()) = Raise e ->
    SubdailyPModel_init pkg a = Raise e).
  { intros e He. apply init_validate. unfold validate.
    rewrite Hcongruent. cbn [negb].
    by rewrite bool_decide_eq_true_2. }
  split; [|split].
  - intros Hnone. apply Hstart.
    by rewrite (proj2 (not_in_true _ _) Hnone).
  - intros [c Hc] Hnone. apply Hstart. unfold not_in at 1. rewrite Hc.
    by rewrite (proj2 (not_in_true _ _) Hnone).
  - intros [c Hc] [q Hq] Hnone. apply Hstart.
    unfold not_in at 1. rewrite Hc. unfold not_in at 1. rewrite Hq.
    by rewrite (proj2 (not_in_true _ _) Hnone).
Qed.

Lemma elem_of_snoc (name v : string) (vars : list string) :
  name ∈ vars ++ [v] <-> name ∈ vars \/ name = v.
Proof. by rewrite elem_of_app, list_elem_of_singleton. Qed.

Lemma daily_environment_lookup a (vars : list string) d :
  daily_environment_of a vars = Ok d ->
  forall name m,
    d !! name = Some m
    <-> name ∈ vars
        /\ exists env_var,
             env_getattr (env a) name = Some env_var
             /\ get_daily_means (fs_scaler a) env_var (allow_partial_data a)
                = Ok m.
Proof.
  unfold daily_environment_of. revert d.
  induction vars as [|v vars IH] using rev_ind; intros d Hd name m.
  - injection Hd as <-. rewrite lookup_empty. split; [done|].
    intros [Hin _]. by apply elem_of_nil in Hin.
  - rewrite foldl_app in Hd. cbn [foldl] in Hd.
    apply bind_Ok in Hd as (d0 & Hd0 & Hd).
    specialize (IH d0 Hd0). rewrite elem_of_snoc.
    destruct (env_getattr (env a) v) as [env_var|] eqn:Hv.
    + apply bind_Ok in Hd as (mv & Hmv & Hd). injection Hd as <-.
      destruct (decide (name = v)) as [->|Hne].
      * rewrite lookup_insert_eq. split.
        -- intros [= <-]. split; [by right|]. by exists env_var.
        -- intros (_ & env_var' & Hv' & Hm'). rewrite Hv in Hv'.
           injection Hv' as <-. rewrite Hmv in Hm'. by injection Hm' as <-.
      * rewrite lookup_insert_ne by done. rewrite IH. split.
        -- intros [Hin Hrest]. split; [by left|done].
        -- intros [[Hin|Heq] Hrest]; [done|by subst].
    + injection Hd as <-. rewrite IH. split.
      * intros [Hin Hrest]. split; [by left|done].
      * intros [[Hin|Heq] Hrest]; [done|]. subst name.
        destruct Hrest as (env_var & Hv' & _). by rewrite Hv in Hv'.
Qed.

Lemma daily_environment_complete a (vars : list string) d :
  daily_environment_of a vars = Ok d ->
  forall name env_var,
    name ∈ vars -> env_getattr (env a) name = Some env_var ->
    exists m,
      get_daily_means (fs_scaler a) env_var (allow_partial_data a) = Ok m.
Proof.
  unfold daily_environment_of. revert d.
  induction vars as [|v vars IH] using rev_ind; intros d Hd name env_var Hin
    Hvar.
  - by apply elem_of_nil in Hin.
  - rewrite foldl_app in Hd. cbn [foldl] in Hd.
    apply bind_Ok in Hd as (d0 & Hd0 & Hd).
    apply elem_of_snoc in Hin as [Hin | ->]; [by eapply IH|].
    rewrite Hvar in Hd. apply bind_Ok in Hd as (m & Hm & _). by exists m.
Qed.

(** Property X9. The daily environment holds the daily mean of every requested
    variable that the environment provides, and nothing else: a
    variable the environment leaves unset is not passed on. *)
Theorem daily_environment_entries a (vars : list string) d :
  daily_environment_of a vars = Ok d ->
  (forall name m,
      d !! name = Some m
      <-> name ∈ vars
          /\ exists env_var,
               env_getattr (env a) name = Some env_var
               /\ get_daily_means (fs_scaler a) env_var
                    (allow_partial_data a) = Ok m)
  /\ (forall name env_var,
        name ∈ vars -> env_getattr (env a) name = Some env_var ->
        is_Some (d !! name))
  /\ (forall name,
        env_getattr (env a) name = None -> d !! name = None).
Proof.
  intros Hd. split; [by apply daily_environment_lookup|]. split.
  - intros name env_var Hin Hvar.
    destruct (daily_environment_complete a vars d Hd name env_var Hin Hvar)
      as [m Hm].
    exists m. apply (daily_environment_lookup a vars d Hd). eauto.
  - intros name Hnone. destruct (d !! name) as [m|] eqn:Hm; [|done].
    apply (daily_environment_lookup a vars d Hd) in Hm
      as (_ & env_var & Hvar & _).
    by rewrite Hnone in Hvar.
Qed.

Lemma memory_effect_Ok_without_holdover uninit (values : ndarray T)
    previous_values alpha_v (realised : ndarray T) :
  memory_effect uninit values previous_values alpha_v false = Ok realised ->
  any_isnan values = false.
Proof.
  unfold memory_effect. destruct (any_isnan values); [done|done].
Qed.

Lemma memory_effect_raises_without_holdover uninit (values : ndarray T)
    previous_values alpha_v :
  any_isnan values = true ->
  memory_effect uninit values previous_values alpha_v false
  = Raise (ValueError "Missing values in data passed to memory_effect").
Proof. intros Hnan. unfold memory_effect. by rewrite Hnan. Qed.

(** Property X10. Without holdover a model is constructed only from daily
    optimal
    values without missing entries; and a missing entry in the daily
    optimal xi, once steps 1 to 4 and the check of the seeds have
    succeeded, raises the [ValueError] of [memory_effect]. *)
Theorem init_without_holdover a :
  allow_holdover a = false ->
  (forall m,
      SubdailyPModel_init pkg a = Ok m ->
      any_isnan (xi (optchi (pmodel_acclim m))) = false
      /\ any_isnan (vcmax25_opt m) = false
      /\ any_isnan (jmax25_opt m) = false)
  /\ (forall ac seeds,
        acclimate pkg a = Ok ac ->
        check_previous_realised a = Ok seeds ->
        any_isnan (xi (optchi (ac_pmodel_acclim ac))) = true ->
        SubdailyPModel_init pkg a
        = Raise (ValueError "Missing values in data passed to memory_effect")).
Proof.
  intros Hno. split.
  - intros m Hinit.
    destruct (init_Ok pkg a m Hinit) as (ac & [[s0 s1] s2] & _ & _ & Hreal).
    unfold realise in Hreal. rewrite Hno in Hreal. bind_inv Hreal.
    injection Hreal as <-.
    cbn [pmodel_acclim vcmax25_opt jmax25_opt].
    repeat match goal with
      | Hm : memory_effect _ _ _ _ false = Ok _ |- _ =>
          apply memory_effect_Ok_without_holdover in Hm
      end.
    done.
  - intros ac [[s0 s1] s2] Hac Hcheck Hnan.
    unfold SubdailyPModel_init. rewrite Hac. cbn [mbind result_bind].
    rewrite Hcheck. cbn [mbind result_bind].
    unfold realise. rewrite Hno.
    by rewrite (memory_effect_raises_without_holdover _ _ _ _ Hnan).
Qed.

(** Property X11. Without seeds [fill_kind] has no effect on what the
    constructor
    returns: it is read by the check of the seeds only, and is not passed
    on to the scaler. *)
Theorem init_ignores_fill_kind a (fill : string) :
  previous_realised a = None ->
  SubdailyPModel_init pkg (with_fill_kind fill a)
  = SubdailyPModel_init pkg a.
Proof.
  intros Hnone. unfold SubdailyPModel_init.
  change (acclimate pkg (with_fill_kind fill a)) with (acclimate pkg a).
  destruct (acclimate pkg a) as [ac|e]; [|done].
  cbn [mbind result_bind].
  unfold check_previous_realised. cbn [with_fill_kind previous_realised].
  rewrite Hnone. cbn [mbind result_bind]. reflexivity.
Qed.

(** Property X12. [convert_pmodel_to_subdaily] gives the same result for every
    [fill_kind]: it passes no seeds, and without seeds the constructor
    does not look at [fill_kind]. *)
Theorem convert_pmodel_to_subdaily_fill_kind
    (pmodel : @FittedPModel T Coef BoundsChecker) (scaler : SubdailyScaler)
    (alpha_v : T) (holdover_allowed : bool) (fill fill' : string) :
  convert_pmodel_to_subdaily pkg pmodel scaler alpha_v holdover_allowed fill
  = convert_pmodel_to_subdaily pkg pmodel scaler alpha_v holdover_allowed
      fill'.
Proof.
  unfold convert_pmodel_to_subdaily, SubdailyPModel_init.
  match goal with
  | |- (acclimate pkg ?a ≫= _) = (acclimate pkg ?b ≫= _) =>
      change (acclimate pkg b) with (acclimate pkg a);
      destruct (acclimate pkg a) as [ac|e]; [|done]
  end.
  reflexivity.
Qed.
End SubdailyMore.

(** ** pyrealm.pmodel.functions in exact arithmetic *)

Section FunctionsFacts.
Import Functions.
Local Open Scope R_scope.
Implicit Types (core_const default_core_const : @CoreConst R)
  (pmodel_const : @PModelConst R).

Lemma maximum_real (x y : R) : maximum x y = Rmax x y.
Proof.
  unfold maximum, Rmax. cbn [leb isnan real_arith]. unfold Rleb.
  rewrite orb_false_r.
  destruct (Rle_dec y x), (Rle_dec x y); try done; lra.
Qed.

Lemma simple_arrhenius_exponent (tk tk_ref ha : R) core_const :
  tk <> 0 -> tk_ref <> 0 -> k_R core_const <> 0 ->
  ha * (tk - tk_ref) / (tk_ref * k_R core_const * tk)
  = ha / k_R core_const * (1 / tk_ref - 1 / tk).
Proof. intros Htk Href HR. field. done. Qed.

(** Property X13. The factor in the other form of the docstring:
    [exp((ha / R) * (1 / tk_ref - 1 / tk))]. *)
Theorem simple_arrhenius_equivalent_form (tk tk_ref ha : R) core_const :
  tk <> 0 -> tk_ref <> 0 -> k_R core_const <> 0 ->
  calculate_simple_arrhenius_factor tk tk_ref ha core_const
  = exp (ha / k_R core_const * (1 / tk_ref - 1 / tk)).
Proof.
  intros Htk Href HR. unfold calculate_simple_arrhenius_factor.
  cbn [np_exp real_elementary add sub mul div real_arith].
  by rewrite simple_arrhenius_exponent.
Qed.

Lemma simple_arrhenius_pos (tk tk_ref ha : R) core_const :
  0 < calculate_simple_arrhenius_factor tk tk_ref ha core_const.
Proof.
  unfold calculate_simple_arrhenius_factor.
  cbn [np_exp real_elementary]. apply exp_pos.
Qed.

Lemma simple_arrhenius_one (tk_ref ha : R) core_const :
  0 < tk_ref -> 0 < k_R core_const ->
  calculate_simple_arrhenius_factor tk_ref tk_ref ha core_const = 1.
Proof.
  intros Href HR. unfold calculate_simple_arrhenius_factor.
  cbn [np_exp real_elementary add sub mul div real_arith].
  replace (ha * (tk_ref - tk_ref) / (tk_ref * k_R core_const * tk_ref))
    with 0 by (field; lra).
  apply exp_0.
Qed.

(** Property X14. The factor is positive, and 1 at the reference
    temperature. *)
Theorem simple_arrhenius_at_reference (tk tk_ref ha : R) core_const :
  0 < tk_ref -> 0 < k_R core_const ->
  0 < calculate_simple_arrhenius_factor tk tk_ref ha core_const
  /\ calculate_simple_arrhenius_factor tk_ref tk_ref ha core_const = 1.
Proof.
  intros Href HR. unfold calculate_simple_arrhenius_factor.
  cbn [np_exp real_elementary add sub mul div real_arith].
  split; [apply exp_pos|].
  replace (ha * (tk_ref - tk_ref) / (tk_ref * k_R core_const * tk_ref))
    with 0 by (field; lra).
  apply exp_0.
Qed.

(** Property X15. With a positive activation energy the factor grows with the
    temperature. *)
Theorem simple_arrhenius_increasing (tk1 tk2 tk_ref ha : R) core_const :
  0 < ha -> 0 < k_R core_const -> 0 < tk_ref -> 0 < tk1 -> tk1 < tk2 ->
  calculate_simple_arrhenius_factor tk1 tk_ref ha core_const
  < calculate_simple_arrhenius_factor tk2 tk_ref ha core_const.
Proof.
  intros Hha HR Href H1 H12. unfold calculate_simple_arrhenius_factor.
  cbn [np_exp real_elementary add sub mul div real_arith].
  rewrite !simple_arrhenius_exponent by lra.
  apply exp_increasing.
  apply Rmult_lt_compat_l.
  - apply Rdiv_lt_0_compat; lra.
  - assert (1 / tk2 < 1 / tk1); [|lra].
    unfold Rdiv. rewrite !Rmult_1_l. apply Rinv_lt_contravar; [nra|done].
Qed.

(** Property X16. Factors compose along a chain of reference temperatures,
    and scaling
    a rate to the reference temperature and back returns the rate. *)
Theorem simple_arrhenius_composes (tk t1 t0 ha rate : R) core_const :
  0 < tk -> 0 < t1 -> 0 < t0 -> 0 < k_R core_const ->
  calculate_simple_arrhenius_factor tk t1 ha core_const
  * calculate_simple_arrhenius_factor t1 t0 ha core_const
  = calculate_simple_arrhenius_factor tk t0 ha core_const
  /\ rate / calculate_simple_arrhenius_factor tk t0 ha core_const
     * calculate_simple_arrhenius_factor tk t0 ha core_const = rate.
Proof.
  intros Htk H1 H0 HR. split.
  - unfold calculate_simple_arrhenius_factor.
    cbn [np_exp real_elementary add sub mul div real_arith].
    rewrite !simple_arrhenius_exponent by lra.
    rewrite <- exp_plus. f_equal. field. lra.
  - field. apply Rgt_not_eq. apply simple_arrhenius_pos.
Qed.

(** Property X17. The peaked factor is positive, and 1 at the reference
    temperature,
    whatever the growth temperature and the entropy terms. *)
Theorem kattge_knorr_at_reference default_core_const
    (tk_leaf tk_ref tc_growth ha hd entropy_intercept entropy_slope : R)
    core_const :
  0 < tk_ref -> 0 < k_R default_core_const ->
  0 < calculate_kattge_knorr_arrhenius_factor default_core_const tk_leaf
        tk_ref tc_growth ha hd entropy_intercept entropy_slope core_const
  /\ calculate_kattge_knorr_arrhenius_factor default_core_const tk_ref
       tk_ref tc_growth ha hd entropy_intercept entropy_slope core_const
     = 1.
Proof.
  intros Href HR. unfold calculate_kattge_knorr_arrhenius_factor.
  cbv zeta. split.
  - cbn [mul div add one np_exp real_elementary real_arith].
    apply Rmult_lt_0_compat.
    + apply simple_arrhenius_pos.
    + apply Rdiv_lt_0_compat;
        match goal with
        | |- 0 < 1 + exp ?x => pose proof (exp_pos x); lra
        end.
  - rewrite (simple_arrhenius_one tk_ref ha default_core_const Href HR).
    cbn [mul div add sub one np_exp real_elementary real_arith].
    match goal with
    | |- context [exp ?x] => pose proof (exp_pos x)
    end.
    field. lra.
Qed.

(** Property X18. The scaling of dark respiration is positive, and 1 at the
    reference
    temperature. *)
Theorem ftemp_inst_rd_at_reference (tc : R) pmodel_const :
  0 < calc_ftemp_inst_rd tc pmodel_const
  /\ calc_ftemp_inst_rd (plant_T_ref pmodel_const) pmodel_const = 1.
Proof.
  unfold calc_ftemp_inst_rd, square.
  cbn [np_exp real_elementary sub mul real_arith].
  split; [apply exp_pos|].
  replace (heskel_b pmodel_const
           * (plant_T_ref pmodel_const - plant_T_ref pmodel_const)
           - heskel_c pmodel_const
             * (plant_T_ref pmodel_const * plant_T_ref pmodel_const
                - plant_T_ref pmodel_const * plant_T_ref pmodel_const))
    with 0 by ring.
  apply exp_0.
Qed.

(** Property X19. The temperature dependence of the quantum yield is never
    negative:
    it is the quadratic of the pathway where that is positive, and 0
    elsewhere. *)
Theorem ftemp_kphio_clipped (tc : R) (c4 : bool) pmodel_const :
  let '(c0, c1, c2) :=
    if c4 then kphio_C4 pmodel_const else kphio_C3 pmodel_const in
  0 <= calc_ftemp_kphio tc c4 pmodel_const
  /\ (0 <= c0 + c1 * tc + c2 * (tc * tc) ->
      calc_ftemp_kphio tc c4 pmodel_const = c0 + c1 * tc + c2 * (tc * tc))
  /\ (c0 + c1 * tc + c2 * (tc * tc) <= 0 ->
      calc_ftemp_kphio tc c4 pmodel_const = 0).
Proof.
  unfold calc_ftemp_kphio, square.
  destruct (if c4 then kphio_C4 pmodel_const else kphio_C3 pmodel_const)
    as [[c0 c1] c2].
  rewrite maximum_real.
  cbn [add mul zero real_elementary real_arith].
  split; [apply Rmax_r|]. split; intros Hq.
  - by apply Rmax_left.
  - by apply Rmax_right.
Qed.

(** Property X20. The compensation point is its reference value at the
    reference
    temperature and the standard pressure, it is proportional to the
    pressure, and positive for positive constants and pressure. *)
Theorem gammastar_reference_and_pressure default_core_const (tc patm c : R)
    pmodel_const core_const :
  0 < k_Po core_const ->
  0 < plant_T_ref pmodel_const + k_CtoK core_const ->
  0 < k_R default_core_const ->
  calc_gammastar default_core_const (plant_T_ref pmodel_const)
    (k_Po core_const) pmodel_const core_const
  = bernacchi_gs25_0 pmodel_const
  /\ calc_gammastar default_core_const tc (c * patm) pmodel_const core_const
     = c * calc_gammastar default_core_const tc patm pmodel_const core_const
  /\ (0 < bernacchi_gs25_0 pmodel_const -> 0 < patm ->
      0 < calc_gammastar default_core_const tc patm pmodel_const core_const).
Proof.
  intros HPo Href HR. unfold calc_gammastar.
  split; [|split].
  - rewrite (simple_arrhenius_one _ _ default_core_const Href HR).
    cbn [mul div real_arith]. field. lra.
  - cbn [mul div real_arith]. field. lra.
  - intros Hgs Hp. cbn [mul div real_arith].
    apply Rmult_lt_0_compat.
    + apply Rdiv_lt_0_compat; [nra|done].
    + apply simple_arrhenius_pos.
Qed.

(** Property X21. The Michaelis-Menten coefficient is positive for positive
    constants
    and pressure; at the reference temperature it is
    [kc25 * (1 + k_co * 1e-6 * patm / ko25)]. *)
Theorem kmm_positive_and_reference default_core_const (tc patm : R)
    pmodel_const core_const :
  0 < plant_T_ref pmodel_const + k_CtoK core_const ->
  0 < k_R default_core_const ->
  0 < bernacchi_kc25 pmodel_const ->
  0 < bernacchi_ko25 pmodel_const ->
  0 < k_co core_const ->
  0 <= patm ->
  0 < calc_kmm default_core_const tc patm pmodel_const core_const
  /\ calc_kmm default_core_const (plant_T_ref pmodel_const) patm pmodel_const
       core_const
     = bernacchi_kc25 pmodel_const
       * (1 + k_co core_const * (1 / 1000000) * patm
              / bernacchi_ko25 pmodel_const).
Proof.
  intros Href HR Hkc Hko Hco Hp. unfold calc_kmm. cbv zeta. split.
  - pose proof (simple_arrhenius_pos
                  (add tc (k_CtoK core_const))
                  (add (plant_T_ref pmodel_const) (k_CtoK core_const))
                  (bernacchi_dhac pmodel_const) default_core_const) as Hfc.
    pose proof (simple_arrhenius_pos
                  (add tc (k_CtoK core_const))
                  (add (plant_T_ref pmodel_const) (k_CtoK core_const))
                  (bernacchi_dhao pmodel_const) default_core_const) as Hfo.
    set (fc := calculate_simple_arrhenius_factor _ _
                 (bernacchi_dhac pmodel_const) _) in *.
    set (fo := calculate_simple_arrhenius_factor _ _
                 (bernacchi_dhao pmodel_const) _) in *.
    cbn [mul div add one millionth real_elementary real_arith].
    apply Rmult_lt_0_compat; [nra|].
    assert (0 <= k_co core_const * (1 / 1000000) * patm
                 / (bernacchi_ko25 pmodel_const * fo)); [|lra].
    apply Rmult_le_pos; [nra|].
    apply Rlt_le, Rinv_0_lt_compat. nra.
  - rewrite !(simple_arrhenius_one _ _ default_core_const Href HR).
    cbn [mul div add one millionth real_elementary real_arith].
    field. lra.
Qed.

(** Property X22. The coefficient of PEPc does not depend on the pressure,
    which is
    only checked for its shape; at the reference temperature it is
    [boyd_kp25_c4]. *)
Theorem kp_c4_ignores_pressure default_core_const (tc patm patm' : R)
    pmodel_const core_const :
  0 < plant_T_ref pmodel_const + k_CtoK core_const ->
  0 < k_R default_core_const ->
  calc_kp_c4 default_core_const tc patm pmodel_const core_const
  = calc_kp_c4 default_core_const tc patm' pmodel_const core_const
  /\ calc_kp_c4 default_core_const (plant_T_ref pmodel_const) patm
       pmodel_const core_const
     = boyd_kp25_c4 pmodel_const.
Proof.
  intros Href HR. split; [done|]. unfold calc_kp_c4.
  rewrite (simple_arrhenius_one _ _ default_core_const Href HR).
  cbn [mul real_arith]. ring.
Qed.

(** Property X23. The relative viscosity is 1 at the standard temperature and
    pressure, when the viscosity there is not zero. *)
Theorem ns_star_at_standard
    (calc_viscosity_h2o : R -> R -> @CoreConst R -> R) core_const :
  calc_viscosity_h2o (k_To core_const - k_CtoK core_const) (k_Po core_const)
    core_const <> 0 ->
  calc_ns_star calc_viscosity_h2o (k_To core_const - k_CtoK core_const)
    (k_Po core_const) core_const = 1.
Proof.
  intros Hvisc. unfold calc_ns_star. cbn [sub div real_arith].
  by field.
Qed.

Lemma clip_real (x : R) : 0 <= clip x 0 1 <= 1.
Proof.
  unfold clip. rewrite minimum_real, maximum_real.
  unfold Rmin, Rmax.
  destruct (Rle_dec x 0); destruct (Rle_dec _ 1); lra.
Qed.

(** Property X24. When the two thresholds [soilmstress_theta0] and
    [soilmstress_thetastar] differ (the quotient that gives [beta] is then
    defined), the stress factor of Stocker lies between 0 and 1, is 1 at
    and above the upper threshold of soil moisture, and at the lower
    threshold is [y0 = soilmstress_a + soilmstress_b * meanalpha] when
    that lies between 0 and 1. *)
Theorem soilmstress_stocker_bounds (soilm meanalpha : R) pmodel_const :
  soilmstress_theta0 pmodel_const <> soilmstress_thetastar pmodel_const ->
  0 <= calc_soilmstress_stocker soilm meanalpha pmodel_const <= 1
  /\ (soilmstress_thetastar pmodel_const <= soilm ->
      calc_soilmstress_stocker soilm meanalpha pmodel_const = 1)
  /\ (soilmstress_theta0 pmodel_const <= soilmstress_thetastar pmodel_const ->
      0 <= soilmstress_a pmodel_const
           + soilmstress_b pmodel_const * meanalpha <= 1 ->
      calc_soilmstress_stocker (soilmstress_theta0 pmodel_const) meanalpha
        pmodel_const
      = soilmstress_a pmodel_const + soilmstress_b pmodel_const * meanalpha).
Proof.
  intros Hthresholds.
  unfold calc_soilmstress_stocker. cbv zeta.
  cbn [zero real_elementary one real_arith].
  split; [apply clip_real|]. split.
  - intros Habove. unfold clip. rewrite minimum_real, maximum_real.
    cbn [leb real_arith]. unfold Rleb.
    destruct (Rle_dec soilm (soilmstress_thetastar pmodel_const))
      as [Hle|Hgt].
    + assert (soilm = soilmstress_thetastar pmodel_const) as -> by lra.
      unfold square. cbn [sub mul div real_arith].
      replace (soilmstress_thetastar pmodel_const
               - soilmstress_thetastar pmodel_const) with 0 by ring.
      rewrite !Rmult_0_r, Rminus_0_r.
      rewrite Rmax_left by lra. by rewrite Rmin_left by lra.
    + rewrite Rmax_left by lra. by rewrite Rmin_left by lra.
  - intros Hbelow Hy0. unfold clip. rewrite minimum_real, maximum_real.
    cbn [leb real_arith]. unfold Rleb.
    destruct (Rle_dec (soilmstress_theta0 pmodel_const)
                (soilmstress_thetastar pmodel_const)) as [_|Hgt]; [|lra].
    unfold square. cbn [add sub mul div real_arith].
    match goal with
    | |- Rmin (Rmax ?x 0) 1 = ?y => replace x with y by (field; lra)
    end.
    rewrite Rmax_left by lra. by rewrite Rmin_left by lra.
Qed.

(** Property X25. The stress factor of Mengoli: at or above the threshold
    [psi] it is
    the maximal level [y]; for positive coefficients and aridity index
    and a non-negative soil moisture it lies between 0 and [y], and [y]
    is at most 1. *)
Theorem soilmstress_mengoli_bounds (soilm aridity_index : R) pmodel_const :
  let y :=
    Rmin (soilm_mengoli_y_a pmodel_const
          * Rpower aridity_index (soilm_mengoli_y_b pmodel_const)) 1 in
  let psi :=
    Rmin (soilm_mengoli_psi_a pmodel_const
          * Rpower aridity_index (soilm_mengoli_psi_b pmodel_const)) 1 in
  (psi <= soilm ->
   calc_soilmstress_mengoli soilm aridity_index pmodel_const = y)
  /\ (0 < soilm_mengoli_y_a pmodel_const ->
      0 < soilm_mengoli_psi_a pmodel_const ->
      0 <= soilm ->
      0 <= calc_soilmstress_mengoli soilm aridity_index pmodel_const <= y
      /\ y <= 1).
Proof.
  cbv zeta. unfold calc_soilmstress_mengoli. cbv zeta.
  rewrite !minimum_real.
  cbn [mul div one np_power real_elementary leb real_arith].
  set (y := Rmin (soilm_mengoli_y_a pmodel_const
                  * Rpower aridity_index (soilm_mengoli_y_b pmodel_const)) 1).
  set (psi := Rmin (soilm_mengoli_psi_a pmodel_const
                    * Rpower aridity_index
                        (soilm_mengoli_psi_b pmodel_const)) 1).
  unfold Rleb.
  split.
  - intros Hge. by destruct (Rle_dec psi soilm).
  - intros Hya Hpsia Hs.
    assert (Hy : 0 < y <= 1).
    { unfold y. split; [|apply Rmin_r].
      apply Rmin_glb_lt; [|lra].
      apply Rmult_lt_0_compat; [done|apply exp_pos]. }
    assert (Hpsi : 0 < psi).
    { unfold psi. apply Rmin_glb_lt; [|lra].
      apply Rmult_lt_0_compat; [done|apply exp_pos]. }
    split; [|lra].
    destruct (Rle_dec psi soilm) as [Hge|Hlt]; [lra|].
    apply Rnot_le_lt in Hlt.
    assert (Hratio : 0 <= soilm / psi < 1).
    { split.
      - apply Rmult_le_pos; [done|]. by apply Rlt_le, Rinv_0_lt_compat.
      - apply Rmult_lt_reg_r with (r := psi); [done|].
        replace (soilm / psi * psi) with soilm by (field; lra). lra. }
    replace (y / psi * soilm) with (y * (soilm / psi)) by (field; lra).
    split; nra.
Qed.

(** Property X26. The internal CO2 of the JAMES model is a weighted mean of
    the daily compensation point (filled to the subdaily scale) and the
    ambient CO2, and lies between them. The CO2-limited assimilation
    subtracts the subdaily compensation point of the environment, another
    value: it is not negative when that does not exceed the internal CO2,
    and negative when it does. *)
Theorem subdaily_ci_JAMES_between
    (xi_v ca_v daily_gammastar vpd_v vcmax_v kmm_v : R) :
  0 < xi_v -> 0 <= vpd_v -> 0 <= daily_gammastar ->
  daily_gammastar <= ca_v -> 0 < vcmax_v -> 0 < kmm_v ->
  daily_gammastar <= subdaily_ci_JAMES xi_v ca_v daily_gammastar vpd_v
  <= ca_v
  /\ forall env_gammastar,
       (env_gammastar <= subdaily_ci_JAMES xi_v ca_v daily_gammastar vpd_v ->
        0 <= subdaily_Ac_JAMES vcmax_v
               (subdaily_ci_JAMES xi_v ca_v daily_gammastar vpd_v)
               env_gammastar kmm_v)
       /\ (subdaily_ci_JAMES xi_v ca_v daily_gammastar vpd_v < env_gammastar ->
           subdaily_Ac_JAMES vcmax_v
             (subdaily_ci_JAMES xi_v ca_v daily_gammastar vpd_v)
             env_gammastar kmm_v < 0).
Proof.
  intros Hxi Hvpd Hg Hca Hvc Hk.
  unfold subdaily_ci_JAMES, subdaily_Ac_JAMES.
  cbn [add sub mul div sqrt real_arith].
  pose proof (sqrt_pos vpd_v) as Hs.
  set (s := R_sqrt.sqrt vpd_v) in *.
  assert (Hden : 0 < xi_v + s) by lra.
  assert (Hci : daily_gammastar
                <= (xi_v * ca_v + daily_gammastar * s) / (xi_v + s)
                <= ca_v).
  { split.
    - apply Rmult_le_reg_r with (r := xi_v + s); [done|].
      replace ((xi_v * ca_v + daily_gammastar * s) / (xi_v + s) * (xi_v + s))
        with (xi_v * ca_v + daily_gammastar * s) by (field; lra).
      nra.
    - apply Rmult_le_reg_r with (r := xi_v + s); [done|].
      replace ((xi_v * ca_v + daily_gammastar * s) / (xi_v + s) * (xi_v + s))
        with (xi_v * ca_v + daily_gammastar * s) by (field; lra).
      nra. }
  split; [done|].
  set (ci := (xi_v * ca_v + daily_gammastar * s) / (xi_v + s)) in *.
  assert (Hinv : 0 < / (ci + kmm_v)) by (apply Rinv_0_lt_compat; lra).
  intros env_gammastar. unfold Rdiv. split; intros Hcmp.
  - apply Rmult_le_pos; [nra|lra].
  - assert (vcmax_v * (ci - env_gammastar) < 0) by nra. nra.
Qed.
End FunctionsFacts.

(** ** The further properties on concrete inputs *)

Lemma memory_effect_in_chunks_witness :
  exists R R1 R2 last_realised,
    memory_effect 0%float (NDArray [] ([[1]; [2]] ++ [[3]; [4]])%float) None
      0.5%float false = Ok R
    /\ memory_effect 0%float (NDArray [] [[1]; [2]]%float) None 0.5%float
         false = Ok R1
    /\ last (slices R1) = Some last_realised
    /\ memory_effect 0%float (NDArray [] [[3]; [4]]%float)
         (Some (NDSlice [] last_realised)) 0.5%float false = Ok R2
    /\ slices R = slices R1 ++ slices R2.
Proof.
  apply (memory_effect_in_chunks 0%float [] [[1]; [2]]%float
           [[3]; [4]]%float None 0.5%float false).
  - simpl. lia.
  - simpl. lia.
  - reflexivity.
  - intros previous Hp. discriminate Hp.
Defined.

Lemma memory_effect_leading_gap_witness :
  exists R,
    memory_effect 0%float (series [nan; nan; 3; 5]%float) None 0.5%float true
    = Ok R
    /\ element R 2 0 = Some 3%float.
Proof.
  destruct (memory_effect_leading_gap 0%float
              (series [nan; nan; 3; 5]%float) 0.5%float 2 0)
    as (R & Hrun & Hkept).
  - vm_compute. lia.
  - repeat constructor.
  - reflexivity.
  - intros [|[|t]] v Ht Hel; [| |lia];
      vm_compute in Hel; injection Hel as <-; reflexivity.
  - exists R. split; [exact Hrun|]. rewrite (Hkept 2) by lia. reflexivity.
Defined.

Lemma memory_effect_holds_over_witness :
  exists R,
    memory_effect 0%float (series [1; 3; nan; nan; 7]%float) None 0.5%float
      true = Ok R
    /\ element R 3 0 = Some 2%float.
Proof.
  exists (series [1; 2; 2; 2; 4.5]%float).
  assert (Hrun :
    memory_effect 0%float (series [1; 3; nan; nan; 7]%float) None 0.5%float
      true = Ok (series [1; 2; 2; 2; 4.5]%float))
    by (vm_compute; reflexivity).
  split; [exact Hrun|].
  apply (memory_effect_holds_over 0%float (series [1; 3; nan; nan; 7]%float)
           None 0.5%float (series [1; 2; 2; 2; 4.5]%float) 1 3 0 2%float).
  - repeat constructor.
  - reflexivity.
  - exact Hrun.
  - reflexivity.
  - reflexivity.
  - intros [|[|[|[|t]]]] v Ht Hel; try lia;
      vm_compute in Hel; injection Hel as <-; reflexivity.
  - lia.
  - vm_compute. lia.
Defined.

Lemma memory_effect_alpha_one_witness :
  memory_effect 0%R (NDArray [2] [[1; 10]; [2; 20]; [3; 30]]%R)
    (Some (NDSlice [2] [5; 50]%R)) 1%R false
  = Ok (NDArray [2] [[1; 10]; [2; 20]; [3; 30]]%R).
Proof.
  apply (memory_effect_alpha_one 0%R
           (NDArray [2] [[1; 10]; [2; 20]; [3; 30]]%R)
           (Some (NDSlice [2] [5; 50]%R)) false).
  - unfold len. simpl. lia.
  - repeat constructor.
  - intros previous [= <-]. split; reflexivity.
Defined.

Lemma memory_effect_alpha_zero_witness :
  exists first_slice,
    first_slice = [5; 50]%R
    /\ memory_effect 0%R (NDArray [2] [[1; 10]; [2; 20]; [3; 30]]%R)
         (Some (NDSlice [2] [5; 50]%R)) 0%R false
       = Ok (NDArray [2] (replicate 3 first_slice)).
Proof.
  destruct (memory_effect_alpha_zero 0%R
              (NDArray [2] [[1; 10]; [2; 20]; [3; 30]]%R)
              (Some (NDSlice [2] [5; 50]%R)) false)
    as (first_slice & Hfirst & Hrun).
  - unfold len. simpl. lia.
  - repeat constructor.
  - intros previous [= <-]. split; reflexivity.
  - exists first_slice. split; [symmetry; exact Hfirst|exact Hrun].
Defined.

Lemma memory_effect_bounded_witness :
  (1 <= blend (1 / 2) 1 3 <= 3)%R.
Proof.
  apply (memory_effect_bounded 0%R (NDArray [] [[1]; [3]]%R) None (1 / 2)%R
           false 1%R 3%R (NDArray [] [[1]; [blend (1 / 2) 1 3]]%R)
           ltac:(lra)) with (t := 1) (j := 0).
  - intros [|[|t]] [|j] v Hel; simpl in Hel; try discriminate Hel;
      injection Hel as <-; lra.
  - intros previous j v Hp. discriminate Hp.
  - reflexivity.
  - reflexivity.
Defined.

Lemma init_unknown_method_witness :
  SubdailyPModel_init example_pkg
    (with_methods "lavergne20_c3" "temperature" "simple"
       (example_args 3 3 true "previous" None None))
  = Raise (ValueError
             "Unknown optimal chi estimation method: lavergne20_c3")
  /\ SubdailyPModel_init example_pkg
       (with_methods "prentice14" "sandoval" "simple"
          (example_args 3 3 true "previous" None None))
     = Raise (ValueError "Unknown kphio calculation method: sandoval")
  /\ SubdailyPModel_init example_pkg
       (with_methods "prentice14" "temperature" "kattge_knorr"
          (example_args 3 3 true "previous" None None))
     = Raise (ValueError "Unknown Arrhenius scaling method: kattge_knorr").
Proof.
  split; [|split].
  - apply (proj1 (init_unknown_method example_pkg
                    (with_methods "lavergne20_c3" "temperature" "simple"
                       (example_args 3 3 true "previous" None None))
                    eq_refl ltac:(by eexists))).
    reflexivity.
  - apply (proj1 (proj2 (init_unknown_method example_pkg
                           (with_methods "prentice14" "sandoval" "simple"
                              (example_args 3 3 true "previous" None None))
                           eq_refl ltac:(by eexists)))).
    + vm_compute. by eexists.
    + reflexivity.
  - apply (proj2 (proj2 (init_unknown_method example_pkg
                           (with_methods "prentice14" "temperature"
                              "kattge_knorr"
                              (example_args 3 3 true "previous" None None))
                           eq_refl ltac:(by eexists)))).
    + vm_compute. by eexists.
    + vm_compute. by eexists.
    + reflexivity.
Defined.

Lemma daily_environment_entries_witness :
  exists d,
    daily_environment_of (example_args 3 3 true "previous" None None)
      ["tc"; "co2"; "theta"] = Ok d
    /\ is_Some (d !! "co2")
    /\ d !! "theta" = None.
Proof.
  destruct (daily_environment_of
              (example_args 3 3 true "previous" None None)
              ["tc"; "co2"; "theta"]) as [d|e] eqn:Hd.
  - exists d. split; [reflexivity|].
    destruct (daily_environment_entries
                (example_args 3 3 true "previous" None None)
                ["tc"; "co2"; "theta"] d Hd) as (_ & Hsome & Hnone).
    split.
    + apply (Hsome "co2"
               (co2 (env (example_args 3 3 true "previous" None None)))).
      * apply list_elem_of_In. simpl. tauto.
      * reflexivity.
    + apply Hnone. reflexivity.
  - vm_compute in Hd. discriminate Hd.
Defined.

Lemma init_without_holdover_witness :
  exists m,
    SubdailyPModel_init example_pkg
      (example_args 3 3 true "previous" None None) = Ok m
    /\ any_isnan (vcmax25_opt m) = false.
Proof.
  destruct (SubdailyPModel_init example_pkg
              (example_args 3 3 true "previous" None None)) as [m|e] eqn:Hinit.
  - exists m. split; [reflexivity|].
    apply (proj1 (init_without_holdover example_pkg
                    (example_args 3 3 true "previous" None None) eq_refl)
             m Hinit).
  - vm_compute in Hinit. discriminate Hinit.
Defined.

Lemma init_ignores_fill_kind_witness :
  SubdailyPModel_init example_pkg
    (with_fill_kind "linear" (example_args 3 3 true "previous" None None))
  = SubdailyPModel_init example_pkg
      (example_args 3 3 true "previous" None None).
Proof.
  apply (init_ignores_fill_kind example_pkg
           (example_args 3 3 true "previous" None None) "linear").
  reflexivity.
Defined.

Section FunctionsWitnesses.
Import Functions.
Local Open Scope R_scope.

Lemma simple_arrhenius_equivalent_form_witness :
  calculate_simple_arrhenius_factor 283 298 100000 example_core_const
  = exp (100000 / 8 * (1 / 298 - 1 / 283)).
Proof.
  apply (simple_arrhenius_equivalent_form 283 298 100000 example_core_const);
    cbn [k_R example_core_const]; lra.
Defined.

Lemma simple_arrhenius_at_reference_witness :
  0 < calculate_simple_arrhenius_factor 283 298 100000 example_core_const
  /\ calculate_simple_arrhenius_factor 298 298 100000 example_core_const = 1.
Proof.
  apply (simple_arrhenius_at_reference 283 298 100000 example_core_const);
    cbn [k_R example_core_const]; lra.
Defined.

Lemma simple_arrhenius_increasing_witness :
  calculate_simple_arrhenius_factor 283 298 100000 example_core_const
  < calculate_simple_arrhenius_factor 303 298 100000 example_core_const.
Proof.
  apply (simple_arrhenius_increasing 283 303 298 100000 example_core_const);
    cbn [k_R example_core_const]; lra.
Defined.

Lemma simple_arrhenius_composes_witness :
  calculate_simple_arrhenius_factor 303 283 100000 example_core_const
  * calculate_simple_arrhenius_factor 283 298 100000 example_core_const
  = calculate_simple_arrhenius_factor 303 298 100000 example_core_const
  /\ 50 / calculate_simple_arrhenius_factor 303 298 100000 example_core_const
     * calculate_simple_arrhenius_factor 303 298 100000 example_core_const
     = 50.
Proof.
  apply (simple_arrhenius_composes 303 283 298 100000 50 example_core_const);
    cbn [k_R example_core_const]; lra.
Defined.

Lemma kattge_knorr_at_reference_witness :
  0 < calculate_kattge_knorr_arrhenius_factor example_core_const 283 298 10
        71513 200000 668 (- 1) example_core_const
  /\ calculate_kattge_knorr_arrhenius_factor example_core_const 298 298 10
       71513 200000 668 (- 1) example_core_const = 1.
Proof.
  apply (kattge_knorr_at_reference example_core_const 283 298 10 71513 200000
           668 (- 1) example_core_const);
    cbn [k_R example_core_const]; lra.
Defined.

Lemma ftemp_kphio_clipped_witness :
  0 <= calc_ftemp_kphio 20 false example_pmodel_const
  /\ calc_ftemp_kphio 20 false example_pmodel_const
     = 352 / 1000 + 22 / 1000 * 20 + - (34 / 100000) * (20 * 20)
  /\ calc_ftemp_kphio 0 true example_pmodel_const = 0.
Proof.
  pose proof (ftemp_kphio_clipped 20 false example_pmodel_const) as H3.
  pose proof (ftemp_kphio_clipped 0 true example_pmodel_const) as H4.
  cbn [kphio_C3 kphio_C4 example_pmodel_const] in H3, H4.
  destruct H3 as (Hpos & Hquad & _). destruct H4 as (_ & _ & Hzero).
  split; [exact Hpos|]. split; [apply Hquad; lra|apply Hzero; lra].
Defined.

Lemma gammastar_reference_and_pressure_witness :
  calc_gammastar example_core_const 25 101325 example_pmodel_const
    example_core_const = 4
  /\ calc_gammastar example_core_const 20 (2 * 90000) example_pmodel_const
       example_core_const
     = 2 * calc_gammastar example_core_const 20 90000 example_pmodel_const
           example_core_const
  /\ 0 < calc_gammastar example_core_const 20 90000 example_pmodel_const
           example_core_const.
Proof.
  destruct (gammastar_reference_and_pressure example_core_const 20 90000 2
              example_pmodel_const example_core_const)
    as (Href & Hlin & Hpos);
    try (cbn [k_R k_Po k_CtoK plant_T_ref example_core_const
              example_pmodel_const]; lra).
  split; [exact Href|]. split; [exact Hlin|].
  apply Hpos; cbn [bernacchi_gs25_0 example_pmodel_const]; lra.
Defined.

Lemma kmm_positive_and_reference_witness :
  0 < calc_kmm example_core_const 20 101325 example_pmodel_const
        example_core_const
  /\ calc_kmm example_core_const 25 101325 example_pmodel_const
       example_core_const
     = 40 * (1 + 209476 * (1 / 1000000) * 101325 / 27480).
Proof.
  apply (kmm_positive_and_reference example_core_const 20 101325
           example_pmodel_const example_core_const);
    cbn [k_R k_co k_CtoK plant_T_ref bernacchi_kc25 bernacchi_ko25
         example_core_const example_pmodel_const]; lra.
Defined.

Lemma kp_c4_ignores_pressure_witness :
  calc_kp_c4 example_core_const 20 101325 example_pmodel_const
    example_core_const
  = calc_kp_c4 example_core_const 20 90000 example_pmodel_const
      example_core_const
  /\ calc_kp_c4 example_core_const 25 101325 example_pmodel_const
       example_core_const = 16.
Proof.
  apply (kp_c4_ignores_pressure example_core_const 20 101325 90000
           example_pmodel_const example_core_const);
    cbn [k_R k_CtoK plant_T_ref example_core_const example_pmodel_const];
    lra.
Defined.

Lemma ns_star_at_standard_witness :
  calc_ns_star (fun tc patm _ => 1 + tc * tc + patm * patm) (298 - 273)
    101325 example_core_const = 1.
Proof.
  apply (ns_star_at_standard (fun tc patm _ => 1 + tc * tc + patm * patm)
           example_core_const).
  cbn [k_To k_CtoK k_Po example_core_const]. lra.
Defined.

Lemma soilmstress_stocker_bounds_witness :
  0 <= calc_soilmstress_stocker (3 / 10) 1 example_pmodel_const <= 1
  /\ calc_soilmstress_stocker (8 / 10) 1 example_pmodel_const = 1
  /\ calc_soilmstress_stocker 0 (1 / 2) example_pmodel_const
     = soilmstress_a example_pmodel_const
       + soilmstress_b example_pmodel_const * (1 / 2).
Proof.
  assert (Hthresholds : soilmstress_theta0 example_pmodel_const
                        <> soilmstress_thetastar example_pmodel_const)
    by (cbn [soilmstress_theta0 soilmstress_thetastar example_pmodel_const];
        lra).
  split; [|split].
  - apply (proj1 (soilmstress_stocker_bounds (3 / 10) 1
                    example_pmodel_const Hthresholds)).
  - apply (proj1 (proj2 (soilmstress_stocker_bounds (8 / 10) 1
                           example_pmodel_const Hthresholds))).
    cbn [soilmstress_thetastar example_pmodel_const]. lra.
  - apply (proj2 (proj2 (soilmstress_stocker_bounds 0 (1 / 2)
                           example_pmodel_const Hthresholds)));
      cbn [soilmstress_theta0 soilmstress_thetastar soilmstress_a
             soilmstress_b example_pmodel_const]; lra.
Defined.

Lemma soilmstress_mengoli_bounds_witness :
  0 <= calc_soilmstress_mengoli (6 / 10) (6 / 10) example_pmodel_const <= 1.
Proof.
  assert (Hya : 0 < soilm_mengoli_y_a example_pmodel_const)
    by (cbn [soilm_mengoli_y_a example_pmodel_const]; lra).
  assert (Hpsia : 0 < soilm_mengoli_psi_a example_pmodel_const)
    by (cbn [soilm_mengoli_psi_a example_pmodel_const]; lra).
  assert (Hs : 0 <= 6 / 10) by lra.
  destruct (proj2 (soilmstress_mengoli_bounds (6 / 10) (6 / 10)
                     example_pmodel_const) Hya Hpsia Hs) as [[Hlo Hhi] Hy].
  split; [exact Hlo|]. eapply Rle_trans; [exact Hhi|exact Hy].
Defined.

Lemma subdaily_ci_JAMES_between_witness :
  4 <= subdaily_ci_JAMES 60 40 4 1000 <= 40
  /\ 0 <= subdaily_Ac_JAMES 50 (subdaily_ci_JAMES 60 40 4 1000) 4 70
  /\ subdaily_Ac_JAMES 50 (subdaily_ci_JAMES 60 40 4 1000) 41 70 < 0.
Proof.
  destruct (subdaily_ci_JAMES_between 60 40 4 1000 50 70) as [Hci Hac];
    try lra.
  split; [exact Hci|]. split.
  - apply (proj1 (Hac 4)). lra.
  - apply (proj2 (Hac 41)). lra.
Defined.
End FunctionsWitnesses.
